(** * kilo: a shallow embedding of the viewer core of [kilo.c]

    The development follows the layout of the C file: defines, data,
    terminal (key decoder), row operations, file i/o, output (scrolling),
    input (cursor motion and key dispatch), init.

    Conventions of the embedding.
    - A C [int] is a [Z].  Signed overflow is undefined in C, so there is
      no wrap-around to write out; every quantity below stays between the
      values already stored in the state, and the statements are about runs
      in which the stored values are representable.
    - A C [char] is an [ascii]; a [char *] buffer with its length is a
      [list ascii] (the NUL terminator is the default of [nth]).
    - The global [struct editorConfig E] is passed explicitly.
    - [read(2)] on the terminal is a list of future read outcomes.
    - [exit], a loop that never ends and undefined behaviour are the
      constructors of [outcome]. *)

From Stdlib Require Import ZArith List Ascii Bool Lia ZifyBool.
From Stdlib Require String.
Import String.StringSyntax.
Delimit Scope string_scope with string.
Import ListNotations.
Local Open Scope Z_scope.

Ltac Zify.zify_post_hook ::= Z.to_euclidean_division_equations.

(** ** defines *)

Definition KILO_TAB_STOP : Z := 8.

Definition CTRL_KEY (k : Z) : Z := Z.land k 31.

(** [enum editorKey] *)
Definition ARROW_LEFT : Z := 1000.
Definition ARROW_RIGHT : Z := 1001.
Definition ARROW_UP : Z := 1002.
Definition ARROW_DOWN : Z := 1003.
Definition DEL_KEY : Z := 1004.
Definition HOME_KEY : Z := 1005.
Definition END_KEY : Z := 1006.
Definition PAGE_UP : Z := 1007.
Definition PAGE_DOWN : Z := 1008.

(** Character constants used by the source. *)
Definition TAB : ascii := "009"%char.
Definition LF : ascii := "010"%char.
Definition CR : ascii := "013"%char.
Definition ESC : ascii := "027"%char.
Definition SPACE : ascii := " "%char.
Definition NUL : ascii := "000"%char.

(** Conversion of a [char] to [int] at [return c]; plain [char] is signed
    on the platforms the program targets. *)
Definition int_of_char (c : ascii) : Z :=
  let n := Z.of_N (N_of_ascii c) in
  if n <? 128 then n else n - 256.

(** ** data *)

Record erow : Type := mk_erow {
  size : Z;
  rsize : Z;
  chars : list ascii;
  render : list ascii
}.

Record editorConfig : Type := mk_editorConfig {
  cx : Z;
  cy : Z;
  rx : Z;
  rowoff : Z;
  coloff : Z;
  screenRows : Z;
  screenCols : Z;
  numrows : Z;
  row : list erow;
  filename : option String.string;
  status_msg : String.string;
  statusmsg_time : Z
}.

Definition set_cx (v : Z) (E : editorConfig) : editorConfig :=
  mk_editorConfig v (cy E) (rx E) (rowoff E) (coloff E) (screenRows E)
    (screenCols E) (numrows E) (row E) (filename E) (status_msg E)
    (statusmsg_time E).

Definition set_cy (v : Z) (E : editorConfig) : editorConfig :=
  mk_editorConfig (cx E) v (rx E) (rowoff E) (coloff E) (screenRows E)
    (screenCols E) (numrows E) (row E) (filename E) (status_msg E)
    (statusmsg_time E).

Definition set_rx (v : Z) (E : editorConfig) : editorConfig :=
  mk_editorConfig (cx E) (cy E) v (rowoff E) (coloff E) (screenRows E)
    (screenCols E) (numrows E) (row E) (filename E) (status_msg E)
    (statusmsg_time E).

Definition set_rowoff (v : Z) (E : editorConfig) : editorConfig :=
  mk_editorConfig (cx E) (cy E) (rx E) v (coloff E) (screenRows E)
    (screenCols E) (numrows E) (row E) (filename E) (status_msg E)
    (statusmsg_time E).

Definition set_coloff (v : Z) (E : editorConfig) : editorConfig :=
  mk_editorConfig (cx E) (cy E) (rx E) (rowoff E) v (screenRows E)
    (screenCols E) (numrows E) (row E) (filename E) (status_msg E)
    (statusmsg_time E).

Definition set_screenRows (v : Z) (E : editorConfig) : editorConfig :=
  mk_editorConfig (cx E) (cy E) (rx E) (rowoff E) (coloff E) v
    (screenCols E) (numrows E) (row E) (filename E) (status_msg E)
    (statusmsg_time E).

Definition set_rows (n : Z) (rs : list erow) (E : editorConfig)
  : editorConfig :=
  mk_editorConfig (cx E) (cy E) (rx E) (rowoff E) (coloff E) (screenRows E)
    (screenCols E) n rs (filename E) (status_msg E) (statusmsg_time E).

Definition set_filename (f : option String.string) (E : editorConfig)
  : editorConfig :=
  mk_editorConfig (cx E) (cy E) (rx E) (rowoff E) (coloff E) (screenRows E)
    (screenCols E) (numrows E) (row E) f (status_msg E) (statusmsg_time E).

(** How a call of the program can end. *)
Inductive outcome (A : Type) : Type :=
| Returns (a : A)          (* the call returns *)
| Exits (status : Z)       (* [exit(status)] was called *)
| Blocks                   (* the call waits for input for ever *)
| Undefined.               (* the C standard gives the run no meaning *)

Arguments Returns {A} a.
Arguments Exits {A} status.
Arguments Blocks {A}.
Arguments Undefined {A}.

Definition bind {A B : Type} (m : outcome A) (k : A -> outcome B)
  : outcome B :=
  match m with
  | Returns a => k a
  | Exits s => Exits s
  | Blocks => Blocks
  | Undefined => Undefined
  end.

Notation "x <- m ;; k" := (bind m (fun x => k))
  (at level 61, m at next level, right associativity).

(** ** row operations *)

(** [row->chars[j]]; index [size] holds the terminator. *)
Definition char_at (r : erow) (j : Z) : ascii :=
  nth (Z.to_nat j) (chars r) NUL.

(** One turn of the loop body of [editorRowCxToRx]. *)
Definition rx_step (c : ascii) (rx : Z) : Z :=
  let rx :=
    if Ascii.eqb c TAB
    then rx + ((KILO_TAB_STOP - 1) - Z.rem rx KILO_TAB_STOP)
    else rx in
  rx + 1.

(** [for (j = ...; j < cx; j++)] with [n] turns left. *)
Fixpoint CxToRx_loop (r : erow) (n : nat) (j rx : Z) : Z :=
  match n with
  | O => rx
  | S n' => CxToRx_loop r n' (j + 1) (rx_step (char_at r j) rx)
  end.

Definition editorRowCxToRx (r : erow) (cx : Z) : Z :=
  CxToRx_loop r (Z.to_nat cx) 0 0.

(** The render buffer while it is being filled: the bytes written so far
    and [idx].  The writes [render[idx++] = c] go to consecutive cells from
    cell 0, so the written part is a list that grows at its end. *)
Definition rbuf : Type := (list ascii * Z)%type.

Definition put (c : ascii) (b : rbuf) : rbuf :=
  (fst b ++ [c], snd b + 1).

(** [while (idx % KILO_TAB_STOP != 0) row->render[idx++] = ' ';] *)
Fixpoint pad_loop (fuel : nat) (b : rbuf) : rbuf :=
  match fuel with
  | O => b
  | S fuel' =>
      if Z.rem (snd b) KILO_TAB_STOP =? 0 then b
      else pad_loop fuel' (put SPACE b)
  end.

Definition render_step (c : ascii) (b : rbuf) : rbuf :=
  if Ascii.eqb c TAB
  then pad_loop (Z.to_nat KILO_TAB_STOP) (put SPACE b)
  else put c b.

Fixpoint render_loop (r : erow) (n : nat) (j : Z) (b : rbuf) : rbuf :=
  match n with
  | O => b
  | S n' => render_loop r n' (j + 1) (render_step (char_at r j) b)
  end.



Definition editorUpdateRow (r : erow) : erow :=
  let b := render_loop r (Z.to_nat (size r)) 0 ([], 0) in
  mk_erow (size r) (snd b) (chars r) (fst b).

(** [editorAppendRow(s, len)] *)
Definition editorAppendRow (s : list ascii) (len : nat) (E : editorConfig)
  : editorConfig :=
  let r := mk_erow (Z.of_nat len) 0 (firstn len s) [] in
  set_rows (numrows E + 1) (row E ++ [editorUpdateRow r]) E.

(** ** terminal: the key decoder *)

(** What one [read(STDIN_FILENO, &c, 1)] can give: a byte (result 1),
    nothing within the timeout (result 0), or an error (result -1, with
    [errno] equal to [EAGAIN] or not). *)
Inductive read_result : Type :=
| Got (c : ascii)
| Timeout
| Failed (eagain : bool).

(** The terminal is the list of the outcomes of the reads to come; once
    the list is used up every further read times out. *)
Definition tty : Type := list read_result.

Definition read1 (inp : tty) : read_result * tty :=
  match inp with
  | [] => (Timeout, [])
  | r :: rest => (r, rest)
  end.

(** [while ((nread = read(...)) != 1) { if (nread == -1 && errno != EAGAIN)
    die(...); }] *)
Fixpoint wait_byte (inp : tty) : outcome (ascii * tty) :=
  match inp with
  | [] => Blocks
  | Got c :: rest => Returns (c, rest)
  | Timeout :: rest => wait_byte rest
  | Failed eagain :: rest => if eagain then wait_byte rest else Exits 1
  end.

(** [switch (seq[1])] under [seq[2] == '~']. *)
Definition tilde_key (s1 : ascii) : Z :=
  match s1 with
  | "1"%char => HOME_KEY
  | "3"%char => DEL_KEY
  | "4"%char => END_KEY
  | "5"%char => PAGE_UP
  | "6"%char => PAGE_DOWN
  | "7"%char => HOME_KEY
  | "8"%char => END_KEY
  | _ => int_of_char ESC
  end.

(** [switch (seq[1])] after [ESC '['] and a byte that is not a digit. *)
Definition bracket_key (s1 : ascii) : Z :=
  match s1 with
  | "A"%char => ARROW_UP
  | "B"%char => ARROW_DOWN
  | "C"%char => ARROW_RIGHT
  | "D"%char => ARROW_LEFT
  | "H"%char => HOME_KEY
  | "F"%char => END_KEY
  | _ => int_of_char ESC
  end.

(** [switch (seq[1])] after [ESC 'O']. *)
Definition o_key (s1 : ascii) : Z :=
  match s1 with
  | "H"%char => HOME_KEY
  | "F"%char => END_KEY
  | _ => int_of_char ESC
  end.

Definition is_digit (c : ascii) : bool :=
  (int_of_char "0"%char <=? int_of_char c)
  && (int_of_char c <=? int_of_char "9"%char).

Definition editorReadKey (inp : tty) : outcome (Z * tty) :=
  p <- wait_byte inp ;;
  let '(c, inp1) := p in
  if Ascii.eqb c ESC then
    match read1 inp1 with
    | (Got s0, inp2) =>
        match read1 inp2 with
        | (Got s1, inp3) =>
            if Ascii.eqb s0 "["%char then
              if is_digit s1 then
                match read1 inp3 with
                | (Got s2, inp4) =>
                    if Ascii.eqb s2 "~"%char
                    then Returns (tilde_key s1, inp4)
                    else Returns (int_of_char ESC, inp4)
                | (_, inp4) => Returns (int_of_char ESC, inp4)
                end
              else Returns (bracket_key s1, inp3)
            else if Ascii.eqb s0 "O"%char then Returns (o_key s1, inp3)
            else Returns (int_of_char ESC, inp3)
        | (_, inp3) => Returns (int_of_char ESC, inp3)
        end
    | (_, inp2) => Returns (int_of_char ESC, inp2)
    end
  else Returns (int_of_char c, inp1).

(** ** file i/o *)

(** [getline(3)] of the C library on the bytes still unread in the stream:
    the bytes up to and including the first line feed, or all of them when
    there is none; [None] (the result -1) at end of file. *)
Fixpoint getline_split (fp : list ascii) : list ascii * list ascii :=
  match fp with
  | [] => ([], [])
  | c :: tl =>
      if Ascii.eqb c LF then ([c], tl)
      else let p := getline_split tl in (c :: fst p, snd p)
  end.

Definition getline (fp : list ascii) : option (list ascii * list ascii) :=
  match fp with
  | [] => None
  | _ => Some (getline_split fp)
  end.

(** [while (linelen > 0 && (line[linelen - 1] == '\n' ||
    line[linelen - 1] == '\r')) linelen--;] *)
Fixpoint strip_loop (line : list ascii) (linelen : nat) : nat :=
  match linelen with
  | O => O
  | S n =>
      if Ascii.eqb (nth n line NUL) LF || Ascii.eqb (nth n line NUL) CR
      then strip_loop line n
      else linelen
  end.

(** The [while ((linelen = getline(...)) != -1)] loop. *)
Fixpoint open_loop (fuel : nat) (fp : list ascii) (E : editorConfig)
  : option editorConfig :=
  match fuel with
  | O => None
  | S fuel' =>
      match getline fp with
      | None => Some E
      | Some (line, rest) =>
          let linelen := strip_loop line (length line) in
          open_loop fuel' rest (editorAppendRow line linelen E)
      end
  end.

(** [editorOpen(filename)]; [fp] is what [fopen] gives: the bytes of the
    file, or [None] when it cannot be opened.  Each [getline] that succeeds
    reads at least one byte, so one turn more than the file has bytes is
    fuel enough for the loop to reach the end of the file
    ([open_loop_lines]); the last branch is never taken. *)
Definition editorOpen (name : String.string) (fp : option (list ascii))
  (E : editorConfig) : outcome editorConfig :=
  let E := set_filename (Some name) E in
  match fp with
  | None => Exits 1
  | Some bytes =>
      match open_loop (S (length bytes)) bytes E with
      | Some E' => Returns E'
      | None => Blocks
      end
  end.

(** ** output: scrolling *)

Definition default_row : erow := mk_erow 0 0 [] [].

(** [E.row[i]] *)
Definition row_at (E : editorConfig) (i : Z) : erow :=
  nth (Z.to_nat i) (row E) default_row.

(** [E.rx = 0; if (E.cy < E.numrows) E.rx = editorRowCxToRx(...);] *)
Definition scroll_rx (E : editorConfig) : editorConfig :=
  let E := set_rx 0 E in
  if cy E <? numrows E
  then set_rx (editorRowCxToRx (row_at E (cy E)) (cx E)) E
  else E.

(** The two tests on [E.cy] and [E.rowoff]. *)
Definition scroll_rows (E : editorConfig) : editorConfig :=
  let E := if cy E <? rowoff E then set_rowoff (cy E) E else E in
  if cy E >=? rowoff E + screenRows E
  then set_rowoff (cy E - screenRows E + 1) E
  else E.

(** The two tests on [E.rx] and [E.coloff]. *)
Definition scroll_cols (E : editorConfig) : editorConfig :=
  let E := if rx E <? coloff E then set_coloff (rx E) E else E in
  if rx E >=? coloff E + screenCols E
  then set_coloff (rx E - screenCols E + 1) E
  else E.

Definition editorScroll (E : editorConfig) : editorConfig :=
  scroll_cols (scroll_rows (scroll_rx E)).

(** The part of [editorRefreshScreen] that changes [E]; the frame it
    writes is not modelled. *)
Definition editorRefreshScreen (E : editorConfig) : editorConfig :=
  editorScroll E.

(** ** input *)

(** [erow *row = (E.cy >= E.numrows) ? NULL : &E.row[E.cy];] *)
Definition current_row (E : editorConfig) : option erow :=
  if cy E >=? numrows E then None else Some (row_at E (cy E)).

(** The [switch (key)] of [editorMoveCursor]. *)
Definition move_switch (key : Z) (E : editorConfig) : editorConfig :=
  let r := current_row E in
  if key =? ARROW_LEFT then
    if negb (cx E =? 0) then set_cx (cx E - 1) E
    else if cy E >? 0 then
      let E := set_cy (cy E - 1) E in
      set_cx (size (row_at E (cy E))) E
    else E
  else if key =? ARROW_RIGHT then
    match r with
    | Some r =>
        if cx E <? size r then set_cx (cx E + 1) E
        else if cx E =? size r then set_cx 0 (set_cy (cy E + 1) E)
        else E
    | None => E
    end
  else if key =? ARROW_UP then
    if negb (cy E =? 0) then set_cy (cy E - 1) E else E
  else if key =? ARROW_DOWN then
    if cy E <? numrows E then set_cy (cy E + 1) E else E
  else E.

(** The end of [editorMoveCursor]: [row] is looked up again and [cx] is
    brought back to at most its length. *)
Definition clamp_cx (E : editorConfig) : editorConfig :=
  let rowlen :=
    match current_row E with
    | Some r => size r
    | None => 0
    end in
  if cx E >? rowlen then set_cx rowlen E else E.

Definition editorMoveCursor (key : Z) (E : editorConfig) : editorConfig :=
  clamp_cx (move_switch key E).

(** [int times = ...; while (times--) editorMoveCursor(key);] with [n]
    turns left. *)
Fixpoint times_loop (n : nat) (key : Z) (E : editorConfig) : editorConfig :=
  match n with
  | O => E
  | S n' => times_loop n' key (editorMoveCursor key E)
  end.

(** The [switch (c)] of [editorProcessKeypress].  With a negative
    [times] the loop [while (times--)] runs into signed overflow. *)
Definition processKey (c : Z) (E : editorConfig) : outcome editorConfig :=
  if c =? CTRL_KEY (int_of_char "q"%char) then Exits 0
  else if c =? HOME_KEY then Returns (set_cx 0 E)
  else if c =? END_KEY then
    Returns (if cy E <? numrows E
             then set_cx (size (row_at E (cy E))) E
             else E)
  else if (c =? PAGE_UP) || (c =? PAGE_DOWN) then
    let E :=
      if c =? PAGE_UP then set_cy (rowoff E) E
      else if c =? PAGE_DOWN then
        let E := set_cy (rowoff E + screenRows E - 1) E in
        if cy E >? numrows E then set_cy (numrows E) E else E
      else E in
    let times := screenRows E in
    if times <? 0 then Undefined
    else Returns (times_loop (Z.to_nat times)
                    (if c =? PAGE_UP then ARROW_UP else ARROW_DOWN) E)
  else if (c =? ARROW_DOWN) || (c =? ARROW_UP)
          || (c =? ARROW_LEFT) || (c =? ARROW_RIGHT) then
    Returns (editorMoveCursor c E)
  else Returns E.

Definition editorProcessKeypress (inp : tty) (E : editorConfig)
  : outcome (editorConfig * tty) :=
  p <- editorReadKey inp ;;
  E' <- processKey (fst p) E ;;
  Returns (E', snd p).

(** ** init *)

(** [initEditor]; [ws] is what [getWindowSize] reports, [None] for -1. *)
Definition initEditor (ws : option (Z * Z)) : outcome editorConfig :=
  match ws with
  | None => Exits 1
  | Some (rows, cols) =>
      Returns (mk_editorConfig 0 0 0 0 0 (rows - 2) cols 0 [] None
                 String.EmptyString 0)
  end.

(** The keys of successive turns of the loop of [main], without and with
    the refresh that [main] runs before each key. *)
Fixpoint run_keys (ks : list Z) (E : editorConfig) : outcome editorConfig :=
  match ks with
  | [] => Returns E
  | k :: ks' => E' <- processKey k E ;; run_keys ks' E'
  end.

Fixpoint main_loop (ks : list Z) (E : editorConfig) : outcome editorConfig :=
  match ks with
  | [] => Returns E
  | k :: ks' =>
      E' <- processKey k (editorRefreshScreen E) ;; main_loop ks' E'
  end.

(** ** The vocabulary of the specification *)

(** [row_len(cy)]: the content length of row [cy], 0 past the last row. *)
Definition row_len (E : editorConfig) (y : Z) : Z :=
  if y <? numrows E then size (row_at E y) else 0.

(** The cursor clamp: [0 <= cy <= row_count] and [0 <= cx <= row_len(cy)]. *)
Definition cursor_ok (E : editorConfig) : Prop :=
  0 <= cy E <= numrows E /\ 0 <= cx E <= row_len E (cy E).

(** The representation invariant of the row store: [numrows] counts the
    rows and [size] is the number of bytes of [chars]. *)
Definition wf_row (r : erow) : Prop :=
  size r = Z.of_nat (length (chars r)).

Definition wf_rows (E : editorConfig) : Prop :=
  numrows E = Z.of_nat (length (row E)) /\ Forall wf_row (row E).

(** The navigation commands: arrows, Home, End, PageUp, PageDown. *)
Definition is_nav_key (k : Z) : Prop :=
  In k [ARROW_LEFT; ARROW_RIGHT; ARROW_UP; ARROW_DOWN;
        HOME_KEY; END_KEY; PAGE_UP; PAGE_DOWN].

(** The lines of a file: it is cut after every line feed, and each line
    keeps its line feed. *)
Fixpoint lines_of (fp : list ascii) : list (list ascii) :=
  match fp with
  | [] => []
  | c :: tl =>
      if Ascii.eqb c LF then [c] :: lines_of tl
      else
        match lines_of tl with
        | [] => [[c]]
        | l :: ls => (c :: l) :: ls
        end
  end.

Definition is_crlf (c : ascii) : bool := Ascii.eqb c LF || Ascii.eqb c CR.

Fixpoint drop_crlf (l : list ascii) : list ascii :=
  match l with
  | [] => []
  | c :: tl => if is_crlf c then drop_crlf tl else l
  end.

(** A line with every trailing carriage return and line feed removed. *)
Definition rstrip_crlf (l : list ascii) : list ascii :=
  rev (drop_crlf (rev l)).

(** The tab expansion of a content, as a function of the content alone:
    a tab becomes the spaces up to the next multiple of the tab stop. *)
Fixpoint expand_from (col : nat) (l : list ascii) : list ascii :=
  match l with
  | [] => []
  | c :: tl =>
      if Ascii.eqb c TAB then
        let w := (Z.to_nat KILO_TAB_STOP - col mod Z.to_nat KILO_TAB_STOP)%nat in
        repeat SPACE w ++ expand_from (col + w) tl
      else c :: expand_from (S col) tl
  end.

(** The row that [editorAppendRow] stores for a content. *)
Definition row_of (content : list ascii) : erow :=
  editorUpdateRow (mk_erow (Z.of_nat (length content)) 0 content []).

Definition str (s : String.string) : list ascii :=
  String.list_ascii_of_string s.

(** The file of the three lines [a<TAB>b], [short] and [last]. *)
Definition sample_file : list ascii :=
  str "a"%string ++ [TAB] ++ str "b"%string ++ [LF]
  ++ str "short"%string ++ [LF] ++ str "last"%string ++ [LF].

(** The editor after [initEditor] on a 24x80 terminal and [editorOpen] on
    the sample file. *)
Definition sample_loaded : outcome editorConfig :=
  E <- initEditor (Some (24, 80)) ;;
  editorOpen "sample.txt"%string (Some sample_file) E.

(** Row 0 of the sample file. *)
Definition sample_row : erow := row_of (str "a"%string ++ [TAB] ++ str "b"%string).

(** The bare Escape key: the value of ['\x1b']. *)
Definition ESCAPE_KEY : Z := int_of_char ESC.

(** The reads that a call used up, given the terminal before and after. *)
Definition consumed (before after : tty) : tty :=
  firstn (length before - length after) before.

(** A read that gave no byte: a timeout or an error. *)
Definition no_byte (r : read_result) : Prop :=
  forall c, r <> Got c.

(** The sample file loaded, as an editor state. *)
Definition sample_editor : editorConfig :=
  match sample_loaded with
  | Returns E => E
  | _ => mk_editorConfig 0 0 0 0 0 0 0 0 [] None String.EmptyString 0
  end.

(** What the scroll recomputation and the key dispatch rely on: the row
    store is well formed, at least one text row is visible and the first
    visible row is a position of the row store. *)
Definition view_ok (E : editorConfig) : Prop :=
  wf_rows E /\ 1 <= screenRows E /\ 0 <= rowoff E <= numrows E.

(** The editor of a terminal of two lines (no text row is visible) with no
    file, after the first refresh. *)
Definition two_line_editor : editorConfig :=
  editorRefreshScreen
    (mk_editorConfig 0 0 0 0 0 (2 - 2) 80 0 [] None String.EmptyString 0).

(** Two states with the same row store and the same screen rows. *)
Definition same_view (E E' : editorConfig) : Prop :=
  numrows E' = numrows E /\ row E' = row E
  /\ rowoff E' = rowoff E /\ screenRows E' = screenRows E.

(** The state after the rows of the lines [ls] have been appended. *)
Definition with_lines (ls : list (list ascii)) (E : editorConfig)
  : editorConfig :=
  set_rows (numrows E + Z.of_nat (length ls))
    (row E ++ map (fun l => row_of (rstrip_crlf l)) ls) E.

(** ** The key decoder, seen from outside *)

(** The values of [enum editorKey]. *)
Definition named_keys : list Z :=
  [ARROW_LEFT; ARROW_RIGHT; ARROW_UP; ARROW_DOWN; DEL_KEY;
   HOME_KEY; END_KEY; PAGE_UP; PAGE_DOWN].

(** The byte sequences that follow the escape byte in the [return]
    statements of [editorReadKey] that give a named key. *)
Definition escape_sequences : list (list ascii * Z) :=
  [ (str "[A"%string, ARROW_UP);
    (str "[B"%string, ARROW_DOWN);
    (str "[C"%string, ARROW_RIGHT);
    (str "[D"%string, ARROW_LEFT);
    (str "[H"%string, HOME_KEY);
    (str "[F"%string, END_KEY);
    (str "[1~"%string, HOME_KEY);
    (str "[3~"%string, DEL_KEY);
    (str "[4~"%string, END_KEY);
    (str "[5~"%string, PAGE_UP);
    (str "[6~"%string, PAGE_DOWN);
    (str "[7~"%string, HOME_KEY);
    (str "[8~"%string, END_KEY);
    (str "OH"%string, HOME_KEY);
    (str "OF"%string, END_KEY) ].

(** A read after which the first loop of [editorReadKey] reads again. *)
Definition idle (r : read_result) : Prop :=
  r = Timeout \/ r = Failed true.

(** ** Cursor motion in closed form *)


(** Where MoveRight takes a cursor that is within the clamp. *)
Definition right_of (E : editorConfig) : editorConfig :=
  if cy E <? numrows E then
    if cx E <? row_len E (cy E) then set_cx (cx E + 1) E
    else set_cx 0 (set_cy (cy E + 1) E)
  else E.

(** The cursor on row [y], in the column it had or at the end of row [y]
    when that row is shorter. *)
Definition on_row (y : Z) (E : editorConfig) : editorConfig :=
  set_cx (Z.min (cx E) (row_len E y)) (set_cy y E).

(** The keys that [editorProcessKeypress] acts on. *)
Definition QUIT_KEY : Z := CTRL_KEY (int_of_char "q"%char).

(** ** Rows in step with their content *)

(** A row whose [size], [rsize] and [render] are those that
    [editorUpdateRow] computes from its [chars]. *)
Definition synced (r : erow) : Prop := r = row_of (chars r).

(** What is drawn for a content byte: a tab shows as a space. *)
Definition shown (c : ascii) : ascii :=
  if Ascii.eqb c TAB then SPACE else c.

(** ** The status message and the start of [main] *)

Definition set_status (msg : String.string) (t : Z) (E : editorConfig)
  : editorConfig :=
  mk_editorConfig (cx E) (cy E) (rx E) (rowoff E) (coloff E) (screenRows E)
    (screenCols E) (numrows E) (row E) (filename E) msg t.

(** [editorSetStatusMessage(fmt, ...)]: [text] is the message that the
    format and its arguments spell, of which [vsnprintf] keeps what fits in
    the 50 bytes of [E.status_msg] with its terminator; [now] is what
    [time(NULL)] returns. *)
Definition editorSetStatusMessage (text : String.string) (now : Z)
  (E : editorConfig) : editorConfig :=
  set_status (String.substring 0 49 text) now E.

(** [main] up to its loop.  [ws] is what [getWindowSize] reports and
    [arg] the file named on the command line, with what [fopen] gives for
    it.  The terminal attributes that [enableRawMode] sets are not part of
    the state. *)
Definition startup (ws : option (Z * Z))
  (arg : option (String.string * option (list ascii))) (now : Z)
  : outcome editorConfig :=
  E <- initEditor ws ;;
  E <- match arg with
       | Some (name, fp) => editorOpen name fp E
       | None => Returns E
       end ;;
  Returns (editorSetStatusMessage "HELP: Ctrl-Q = quit"%string now E).

(** [n] turns of the loop of [main] on the terminal input [inp]. *)
Fixpoint session (n : nat) (inp : tty) (E : editorConfig)
  : outcome (editorConfig * tty) :=
  match n with
  | O => Returns (E, inp)
  | S n' =>
      p <- editorProcessKeypress inp (editorRefreshScreen E) ;;
      session n' (snd p) (fst p)
  end.

(** The cursor is inside the window of the screen. *)
Definition cursor_visible (E : editorConfig) : Prop :=
  rowoff E <= cy E < rowoff E + screenRows E
  /\ coloff E <= rx E < coloff E + screenCols E.

(** ** append buffer *)

Module Abuf.

(** [struct abuf] *)
Record t : Type := mk { b : list ascii; size : Z }.

End Abuf.

Definition abuf : Type := Abuf.t.

Definition ABUF_INIT : abuf := Abuf.mk [] 0.

Definition KILO_VERSION : list ascii := str "0.0.1"%string.

(** [snprintf(buf, cap, ...)] for the text that the format and its
    arguments spell: the buffer gets what fits before the terminator, the
    result is the length of the whole text. *)
Definition snprintf (cap : nat) (text : list ascii) : list ascii * Z :=
  (firstn (cap - 1) text, Z.of_nat (length text)).

Definition digit_char (d : Z) : ascii := ascii_of_nat (48 + Z.to_nat d).

(** The decimal digits of a number that is not negative, at most [fuel]
    of them. *)
Fixpoint digits (fuel : nat) (n : Z) : list ascii :=
  match fuel with
  | O => []
  | S fuel' =>
      (if n <? 10 then [] else digits fuel' (n / 10))
      ++ [digit_char (n mod 10)]
  end.

(** What [%d] prints for an [int]: a sign when negative and at most ten
    digits. *)
Definition fmt_d (z : Z) : list ascii :=
  if z <? 0 then "-"%char :: digits 10 (- z) else digits 10 z.

(** The value that a list of decimal digits spells. *)
Definition digits_value (ds : list ascii) : Z :=
  fold_left (fun acc d => 10 * acc + (Z.of_nat (nat_of_ascii d) - 48)) ds 0.

Section Output.

(** Whether [realloc(buf->b, n)] fails, for the buffer and the size asked
    for. *)
Variable realloc_fails : abuf -> Z -> bool.

Definition abAppend (buf : abuf) (s : list ascii) (len : Z) : abuf :=
  if realloc_fails buf (Abuf.size buf + len) then buf
  else Abuf.mk (Abuf.b buf ++ firstn (Z.to_nat len) s)
         (Abuf.size buf + len).

(** [while (padding--) abAppend(ab, " ", 1);] with [n] turns left. *)
Fixpoint padding_loop (n : nat) (ab : abuf) : abuf :=
  match n with
  | O => ab
  | S n' => padding_loop n' (abAppend ab [SPACE] 1)
  end.

(** The body of the loop of [editorDrawRows] for the screen row [y]. *)
Definition draw_row (E : editorConfig) (y : Z) (ab : abuf) : abuf :=
  let filerow := y + rowoff E in
  let ab :=
    if filerow >=? numrows E then
      if (numrows E =? 0) && (y =? Z.quot (screenRows E) 3) then
        let w :=
          snprintf 80 (str "Kilo editor -- version "%string ++ KILO_VERSION) in
        let welcome := fst w in
        let welcomelen := snd w in
        let welcomelen :=
          if welcomelen >? screenCols E then screenCols E else welcomelen in
        let padding := Z.quot (screenCols E - welcomelen) 2 in
        let ab := if padding =? 0 then ab else abAppend ab (str "~"%string) 1 in
        let padding := if padding =? 0 then padding else padding - 1 in
        let ab := padding_loop (Z.to_nat padding) ab in
        abAppend ab welcome welcomelen
      else abAppend ab (str "~"%string) 1
    else
      let len := rsize (row_at E filerow) - coloff E in
      let len := if len <? 0 then 0 else len in
      let len := if len >? screenCols E then screenCols E else len in
      abAppend ab (skipn (Z.to_nat (coloff E)) (render (row_at E filerow))) len in
  let ab := abAppend ab (ESC :: str "[K"%string) 3 in
  abAppend ab [CR; LF] 2.

(** [for (y = ...; y < E.screenRows; y++)] with [n] turns left. *)
Fixpoint drawRows_loop (n : nat) (y : Z) (E : editorConfig) (ab : abuf)
  : abuf :=
  match n with
  | O => ab
  | S n' => drawRows_loop n' (y + 1) E (draw_row E y ab)
  end.

Definition editorDrawRows (E : editorConfig) (ab : abuf) : abuf :=
  drawRows_loop (Z.to_nat (screenRows E)) 0 E ab.

(** The text of [snprintf(status, ..., "%.20s - %d lines", ...)]. *)
Definition status_text (E : editorConfig) : list ascii :=
  firstn 20 (match filename E with
             | Some f => str f
             | None => str "[No Name]"%string
             end)
  ++ str " - "%string ++ fmt_d (numrows E) ++ str " lines"%string.

(** The text of [snprintf(rstatus, ..., "%d/%d", ...)]. *)
Definition rstatus_text (E : editorConfig) : list ascii :=
  fmt_d (cy E + 1) ++ str "/"%string ++ fmt_d (numrows E).

(** [while (len < E.screenCols) { ... }] of [editorDrawStatusBar]. *)
Fixpoint status_loop (fuel : nat) (E : editorConfig) (rstatus : list ascii)
  (rlen len : Z) (ab : abuf) : abuf :=
  match fuel with
  | O => ab
  | S fuel' =>
      if len <? screenCols E then
        if screenCols E - len =? rlen then abAppend ab rstatus rlen
        else status_loop fuel' E rstatus rlen (len + 1)
               (abAppend ab [SPACE] 1)
      else ab
  end.

Definition editorDrawStatusBar (E : editorConfig) (ab : abuf) : abuf :=
  let ab := abAppend ab (ESC :: str "[7m"%string) 4 in
  let s := snprintf 80 (status_text E) in
  let r := snprintf 80 (rstatus_text E) in
  let len := snd s in
  let rlen := snd r in
  let len := if len >? screenCols E then screenCols E else len in
  let ab := abAppend ab (fst s) len in
  let ab :=
    status_loop (Z.to_nat (screenCols E - len)) E (fst r) rlen len ab in
  let ab := abAppend ab (ESC :: str "[m"%string) 3 in
  abAppend ab [CR; LF] 2.

(** [now] is what [time(NULL)] returns. *)
Definition editorDrawMessageBar (now : Z) (E : editorConfig) (ab : abuf)
  : abuf :=
  let ab := abAppend ab (ESC :: str "[K"%string) 3 in
  let msglen := Z.of_nat (String.length (status_msg E)) in
  let msglen := if msglen >? screenCols E then screenCols E else msglen in
  if negb (msglen =? 0) && (now - statusmsg_time E <? 5)
  then abAppend ab (str (status_msg E)) msglen
  else ab.

(** The text of [snprintf(buf, ..., "\x1b[%d;%dH", ...)]. *)
Definition cursor_text (E : editorConfig) : list ascii :=
  ESC :: str "["%string ++ fmt_d (cy E - rowoff E + 1) ++ str ";"%string
  ++ fmt_d (rx E - coloff E + 1) ++ str "H"%string.

(** The frame that [editorRefreshScreen] builds, after [editorScroll]. *)
Definition refresh_frame (now : Z) (E : editorConfig) : abuf :=
  let E := editorScroll E in
  let ab := ABUF_INIT in
  let ab := abAppend ab (ESC :: str "[?25l"%string) 6 in
  let ab := abAppend ab (ESC :: str "[H"%string) 3 in
  let ab := editorDrawRows E ab in
  let ab := editorDrawStatusBar E ab in
  let ab := editorDrawMessageBar now E ab in
  let buf := fst (snprintf 32 (cursor_text E)) in
  let ab := abAppend ab buf (Z.of_nat (length buf)) in
  abAppend ab (ESC :: str "[?25h"%string) 6.

(** What [write(STDOUT_FILENO, ab.b, ab.size)] sends. *)
Definition refresh_output (now : Z) (E : editorConfig) : list ascii :=
  let ab := refresh_frame now E in
  firstn (Z.to_nat (Abuf.size ab)) (Abuf.b ab).

End Output.

(** The allocator that never fails. *)
Definition realloc_succeeds : abuf -> Z -> bool := fun _ _ => false.

(** ** What a frame shows *)

(** The buffer with the bytes [l] added at its end. *)
Definition push (ab : abuf) (l : list ascii) : abuf :=
  Abuf.mk (Abuf.b ab ++ l) (Abuf.size ab + Z.of_nat (length l)).

(** [size] counts the bytes of [b]. *)
Definition bytes_ok (ab : abuf) : Prop :=
  Abuf.size ab = Z.of_nat (length (Abuf.b ab)).

(** Every row has the [rsize] of its rendered form. *)
Definition rendered_rows (E : editorConfig) : Prop :=
  Forall (fun r => rsize r = Z.of_nat (length (render r))) (row E).

Definition welcome_text : list ascii :=
  str "Kilo editor -- version 0.0.1"%string.

(** The welcome line on a screen of [cols] columns: the text, cut to the
    screen, after a tilde and the spaces that centre it. *)
Definition welcome_line (cols : Z) : list ascii :=
  let w := firstn (Z.to_nat cols) welcome_text in
  let padding := Z.quot (cols - Z.of_nat (length w)) 2 in
  (if padding =? 0 then []
   else str "~"%string ++ repeat SPACE (Z.to_nat (padding - 1)))
  ++ w.

(** What the screen row [y] shows, before the codes that end the line. *)
Definition screen_line (E : editorConfig) (y : Z) : list ascii :=
  if y + rowoff E <? numrows E then
    firstn (Z.to_nat (screenCols E))
      (skipn (Z.to_nat (coloff E)) (render (row_at E (y + rowoff E))))
  else if (numrows E =? 0) && (y =? Z.quot (screenRows E) 3)
       then welcome_line (screenCols E)
       else str "~"%string.

(** The codes after each screen row: erase to the end of the line, then
    carriage return and line feed. *)
Definition end_of_line : list ascii := ESC :: str "[K"%string ++ [CR; LF].

(** The screen rows [y], [y + 1], ... , [n] of them. *)
Fixpoint screen_lines (n : nat) (y : Z) (E : editorConfig) : list ascii :=
  match n with
  | O => []
  | S n' => screen_line E y ++ end_of_line ++ screen_lines n' (y + 1) E
  end.

(** The status bar between its two colour codes: the status text cut to
    the screen, then spaces, then the line indicator when there is room
    for it. *)
Definition status_bar (E : editorConfig) : list ascii :=
  let cols := Z.to_nat (screenCols E) in
  let s := firstn cols (status_text E) in
  let r := rstatus_text E in
  if (length s + length r <=? cols)%nat
  then s ++ repeat SPACE (cols - length s - length r) ++ r
  else s ++ repeat SPACE (cols - length s).

(** What the message bar shows after its erase code at time [now]: the
    message, cut to the screen, for five seconds after it was set. *)
Definition message_shown (now : Z) (E : editorConfig) : list ascii :=
  if now - statusmsg_time E <? 5
  then firstn (Z.to_nat (screenCols E)) (str (status_msg E))
  else [].

(** The frame of a state whose scroll offsets are up to date. *)
Definition frame_of (now : Z) (E : editorConfig) : list ascii :=
  (ESC :: str "[?25l"%string) ++ (ESC :: str "[H"%string)
  ++ screen_lines (Z.to_nat (screenRows E)) 0 E
  ++ (ESC :: str "[7m"%string) ++ status_bar E
  ++ (ESC :: str "[m"%string) ++ [CR; LF]
  ++ (ESC :: str "[K"%string) ++ message_shown now E
  ++ cursor_text E
  ++ (ESC :: str "[?25h"%string).

(** ** terminal: the size of the window *)

(** [buf[i] = c] on an array.  A write past the array has no meaning in C;
    the callers below keep [i] inside. *)
Fixpoint store (buf : list ascii) (i : nat) (c : ascii) : list ascii :=
  match buf, i with
  | [], _ => []
  | _ :: tl, O => c :: tl
  | x :: tl, S i' => x :: store tl i' c
  end.

(** The string that starts at a cell: the bytes before the first NUL. *)
Fixpoint c_string (l : list ascii) : list ascii :=
  match l with
  | [] => []
  | c :: tl => if Ascii.eqb c NUL then [] else c :: c_string tl
  end.

Section WindowSize.

(** [sscanf(s, "%d;%d", rows, cols)] of the C library on the string [s]:
    the two numbers when it returns 2, [None] otherwise. *)
Variable sscanf_d_d : list ascii -> option (Z * Z).

(** [while (i < sizeof(buf)) { ... i++; }] of [getCursorPosition], with
    [fuel] cells left. *)
Fixpoint reply_loop (fuel : nat) (i : nat) (buf : list ascii) (inp : tty)
  : list ascii * nat * tty :=
  match fuel with
  | O => (buf, i, inp)
  | S fuel' =>
      match read1 inp with
      | (Got c, rest) =>
          let buf := store buf i c in
          if Ascii.eqb c "R"%char then (buf, i, rest)
          else reply_loop fuel' (S i) buf rest
      | (_, rest) => (buf, i, rest)
      end
  end.

(** [getCursorPosition]: [write_ok] says whether [write] sends the four
    bytes of the query, [garbage] is what the 32 cells of [buf] hold before
    they are written.  The result is the pair that [rows] and [cols]
    receive, [None] for -1. *)
Definition getCursorPosition (write_ok : bool) (garbage : list ascii)
  (inp : tty) : outcome (option (Z * Z) * tty) :=
  if negb write_ok then Returns (None, inp)
  else
    let '(buf, i, rest) := reply_loop 32 0 garbage inp in
    if (32 <=? i)%nat then Undefined
    else
      let buf := store buf i NUL in
      if negb (Ascii.eqb (nth 0 buf NUL) ESC)
         && negb (Ascii.eqb (nth 1 buf NUL) "["%char)
      then Returns (None, rest)
      else Returns (sscanf_d_d (c_string (skipn 2 buf)), rest).

(** [getWindowSize]: [ioctl] is what [TIOCGWINSZ] reports, [ws_row] and
    [ws_col], or [None] when the call fails; [move_ok] says whether
    [write] sends the twelve bytes that move the cursor. *)
Definition getWindowSize (ioctl : option (Z * Z)) (move_ok write_ok : bool)
  (garbage : list ascii) (inp : tty) : outcome (option (Z * Z) * tty) :=
  let fallback :=
    if negb move_ok then Returns (None, inp)
    else getCursorPosition write_ok garbage inp in
  match ioctl with
  | Some (ws_row, ws_col) =>
      if ws_col =? 0 then fallback else Returns (Some (ws_row, ws_col), inp)
  | None => fallback
  end.

(** [initEditor] with its call of [getWindowSize]. *)
Definition init_terminal (ioctl : option (Z * Z)) (move_ok write_ok : bool)
  (garbage : list ascii) (inp : tty) : outcome (editorConfig * tty) :=
  p <- getWindowSize ioctl move_ok write_ok garbage inp ;;
  E <- initEditor (fst p) ;;
  Returns (E, snd p).

End WindowSize.


(** ** Proof steps shared by the sections below *)

Ltac proj_simpl :=
  unfold set_cx, set_cy, set_rx, set_rowoff, set_coloff, set_screenRows,
    set_rows, set_filename in *;
  cbn [cx cy rx rowoff coloff screenRows screenCols numrows row filename
       status_msg statusmsg_time negb] in *.

(** Case analysis on an [if] whose test holds no other [if]. *)
Ltac if_case :=
  match goal with
  | |- context [if ?c then _ else _] =>
      lazymatch c with
      | context [if _ then _ else _] => fail
      | _ => idtac
      end;
      let H := fresh "Hc" in destruct c eqn:H
  | _ : context [if ?c then _ else _] |- _ =>
      lazymatch c with
      | context [if _ then _ else _] => fail
      | _ => idtac
      end;
      let H := fresh "Hc" in destruct c eqn:H
  end.

Ltac ifs := repeat (proj_simpl; if_case); proj_simpl.

(** * Row operations: columns and tab expansion *)

Section RowColumns.

Lemma rx_step_advance (c : ascii) (x : Z) :
  0 <= x -> x + 1 <= rx_step c x <= x + KILO_TAB_STOP.
Proof.
  intros Hx. unfold rx_step, KILO_TAB_STOP.
  destruct (Ascii.eqb c TAB); lia.
Qed.

Lemma rx_step_plain (c : ascii) (x : Z) :
  c <> TAB -> rx_step c x = x + 1.
Proof.
  intros Hc. unfold rx_step.
  destruct (Ascii.eqb_spec c TAB); [contradiction | reflexivity].
Qed.

Lemma rx_step_tab (x : Z) :
  0 <= x ->
  rx_step TAB x = x + KILO_TAB_STOP - x mod KILO_TAB_STOP
  /\ (rx_step TAB x) mod KILO_TAB_STOP = 0.
Proof.
  intros Hx. unfold rx_step, KILO_TAB_STOP. simpl Ascii.eqb. cbv iota.
  split; lia.
Qed.

Lemma CxToRx_loop_nonneg (r : erow) (n : nat) :
  forall j x, 0 <= x -> x <= CxToRx_loop r n j x.
Proof.
  induction n as [|n IH]; intros j x Hx; simpl.
  - lia.
  - pose proof (rx_step_advance (char_at r j) x Hx) as Hs.
    specialize (IH (j + 1) (rx_step (char_at r j) x)). lia.
Qed.

(** The last turn of the column loop, peeled off. *)
Lemma CxToRx_loop_last (r : erow) (n : nat) :
  forall j x,
    CxToRx_loop r (S n) j x
    = rx_step (char_at r (j + Z.of_nat n)) (CxToRx_loop r n j x).
Proof.
  induction n as [|n IH]; intros j x.
  - simpl. now rewrite Z.add_0_r.
  - change (CxToRx_loop r (S (S n)) j x)
      with (CxToRx_loop r (S n) (j + 1) (rx_step (char_at r j) x)).
    rewrite IH. simpl CxToRx_loop at 2.
    replace (j + 1 + Z.of_nat n) with (j + Z.of_nat (S n)) by lia.
    reflexivity.
Qed.

Lemma CxToRx_nonneg (r : erow) (x : Z) : 0 <= editorRowCxToRx r x.
Proof. unfold editorRowCxToRx. apply CxToRx_loop_nonneg. lia. Qed.

Lemma CxToRx_succ (r : erow) (x : Z) :
  0 <= x ->
  editorRowCxToRx r (x + 1) = rx_step (char_at r x) (editorRowCxToRx r x).
Proof.
  intros Hx. unfold editorRowCxToRx.
  replace (Z.to_nat (x + 1)) with (S (Z.to_nat x)) by lia.
  rewrite CxToRx_loop_last. f_equal. f_equal. lia.
Qed.

Lemma CxToRx_nonpositive (r : erow) (x : Z) :
  x <= 0 -> editorRowCxToRx r x = 0.
Proof.
  intros Hx. unfold editorRowCxToRx.
  replace (Z.to_nat x) with O by lia. reflexivity.
Qed.

(** The column grows by at least one for each content column. *)
Lemma CxToRx_strict (r : erow) (d : nat) :
  forall x, 0 <= x ->
    editorRowCxToRx r x + Z.of_nat d <= editorRowCxToRx r (x + Z.of_nat d).
Proof.
  induction d as [|d IH]; intros x Hx.
  - rewrite !Z.add_0_r. lia.
  - replace (x + Z.of_nat (S d)) with ((x + Z.of_nat d) + 1) by lia.
    rewrite CxToRx_succ by lia.
    pose proof (rx_step_advance (char_at r (x + Z.of_nat d))
                  (editorRowCxToRx r (x + Z.of_nat d))
                  (CxToRx_nonneg r _)) as Hs.
    specialize (IH x Hx). lia.
Qed.

Lemma CxToRx_loop_chars (r r' : erow) (n : nat) :
  chars r = chars r' ->
  forall j x, CxToRx_loop r n j x = CxToRx_loop r' n j x.
Proof.
  intros Hc. induction n as [|n IH]; intros j x; simpl.
  - reflexivity.
  - unfold char_at. rewrite Hc. apply IH.
Qed.

End RowColumns.

Section RowRender.

(** The padding loop stops because its test fails, not for lack of
    fuel: from column [idx] it writes the spaces up to the next multiple
    of the tab stop. *)
Lemma pad_loop_spec (fuel : nat) :
  forall (buf : list ascii) (idx : Z),
    0 <= idx ->
    (Z.to_nat ((- idx) mod KILO_TAB_STOP) <= fuel)%nat ->
    pad_loop fuel (buf, idx)
    = (buf ++ repeat SPACE (Z.to_nat ((- idx) mod KILO_TAB_STOP)),
       idx + (- idx) mod KILO_TAB_STOP).
Proof.
  unfold KILO_TAB_STOP.
  induction fuel as [|fuel IH]; intros buf idx Hidx Hfuel.
  - replace (Z.to_nat ((- idx) mod 8)) with O by lia.
    replace ((- idx) mod 8) with 0 by lia.
    simpl. now rewrite app_nil_r, Z.add_0_r.
  - simpl pad_loop. unfold KILO_TAB_STOP. cbn [snd].
    destruct (Z.eqb_spec (Z.rem idx 8) 0) as [Hz|Hnz].
    + replace ((- idx) mod 8) with 0 by lia.
      simpl. now rewrite app_nil_r, Z.add_0_r.
    + unfold put. cbn [fst snd].
      rewrite IH by lia.
      assert (Hd : (- idx) mod 8 = (- (idx + 1)) mod 8 + 1) by lia.
      rewrite Hd.
      replace (Z.to_nat ((- (idx + 1)) mod 8 + 1))
        with (S (Z.to_nat ((- (idx + 1)) mod 8))) by lia.
      simpl repeat. rewrite <- app_assoc. simpl. f_equal. lia.
Qed.

Lemma pad_loop_exits (buf : list ascii) (idx : Z) :
  0 <= idx ->
  Z.rem (snd (pad_loop (Z.to_nat KILO_TAB_STOP) (buf, idx))) KILO_TAB_STOP
  = 0.
Proof.
  intros Hidx. rewrite pad_loop_spec; unfold KILO_TAB_STOP; simpl snd; lia.
Qed.

Lemma render_step_tab (buf : list ascii) (idx : Z) :
  0 <= idx ->
  render_step TAB (buf, idx)
  = (buf ++ repeat SPACE
              (Z.to_nat (KILO_TAB_STOP - idx mod KILO_TAB_STOP)),
     rx_step TAB idx).
Proof.
  intros Hidx. unfold render_step. simpl Ascii.eqb. cbv iota.
  unfold put. cbn [fst snd].
  rewrite pad_loop_spec; unfold KILO_TAB_STOP; try lia.
  unfold rx_step, KILO_TAB_STOP. simpl Ascii.eqb. cbv iota.
  replace (Z.to_nat (8 - idx mod 8))
    with (S (Z.to_nat ((- (idx + 1)) mod 8))) by lia.
  simpl repeat. rewrite <- app_assoc. simpl app. f_equal. lia.
Qed.

Lemma render_step_snd (c : ascii) (b : rbuf) :
  0 <= snd b -> snd (render_step c b) = rx_step c (snd b).
Proof.
  destruct b as [buf idx]. simpl snd. intros Hidx.
  destruct (Ascii.eqb_spec c TAB) as [->|Hc].
  - now rewrite render_step_tab.
  - unfold render_step.
    destruct (Ascii.eqb_spec c TAB); [contradiction|].
    simpl. now rewrite rx_step_plain.
Qed.

Lemma render_step_length (c : ascii) (b : rbuf) :
  0 <= snd b ->
  snd b = Z.of_nat (length (fst b)) ->
  snd (render_step c b) = Z.of_nat (length (fst (render_step c b))).
Proof.
  destruct b as [buf idx]. simpl. intros Hidx Hlen.
  destruct (Ascii.eqb_spec c TAB) as [->|Hc].
  - rewrite render_step_tab by assumption. cbn [fst snd].
    rewrite length_app, repeat_length.
    destruct (rx_step_tab idx Hidx) as [-> _].
    unfold KILO_TAB_STOP. lia.
  - unfold render_step.
    destruct (Ascii.eqb_spec c TAB); [contradiction|].
    simpl. rewrite length_app. simpl. lia.
Qed.

Lemma render_loop_snd (r : erow) (n : nat) :
  forall j b,
    0 <= snd b ->
    snd (render_loop r n j b) = CxToRx_loop r n j (snd b).
Proof.
  induction n as [|n IH]; intros j b Hb; simpl.
  - reflexivity.
  - rewrite IH; rewrite render_step_snd by assumption.
    + reflexivity.
    + pose proof (rx_step_advance (char_at r j) (snd b) Hb). lia.
Qed.

Lemma render_loop_length (r : erow) (n : nat) :
  forall j b,
    0 <= snd b ->
    snd b = Z.of_nat (length (fst b)) ->
    snd (render_loop r n j b)
    = Z.of_nat (length (fst (render_loop r n j b))).
Proof.
  induction n as [|n IH]; intros j b Hb Hlen; simpl.
  - assumption.
  - apply IH.
    + rewrite render_step_snd by assumption.
      pose proof (rx_step_advance (char_at r j) (snd b) Hb). lia.
    + now apply render_step_length.
Qed.

End RowRender.

(** * The sample file of the specification *)

(** C1, as the specification words it, fails: in the loaded sample file the
    rendered form of row 0 is [a], seven spaces, [b], but content column 2
    is not sent to rendered column 9. *)
Lemma sample_cx_to_rx_2_is_not_9 :
  ~ (exists E,
        sample_loaded = Returns E
        /\ render (row_at E 0) = str "a"%string ++ repeat SPACE 7 ++ str "b"%string
        /\ editorRowCxToRx (row_at E 0) 2 = 9).
Proof.
  intros [E [Hload [_ Hrx]]].
  vm_compute in Hload. injection Hload as <-.
  vm_compute in Hrx. discriminate Hrx.
Qed.

(** C1 (amended): loading the sample file gives three rows; row 0 renders as
    [a], seven spaces, [b] (9 characters); content column 2, the column of
    [b], is rendered column 8, and content column 3, the end of the row, is
    rendered column 9. *)
Theorem sample_row0_render_and_columns :
  exists E,
    sample_loaded = Returns E
    /\ numrows E = 3
    /\ render (row_at E 0) = str "a"%string ++ repeat SPACE 7 ++ str "b"%string
    /\ rsize (row_at E 0) = 9
    /\ editorRowCxToRx (row_at E 0) 2 = 8
    /\ editorRowCxToRx (row_at E 0) 3 = 9.
Proof.
  eexists. split; [vm_compute; reflexivity|].
  repeat split; vm_compute; reflexivity.
Qed.

(** * Properties of the column conversion *)

(** C4: along a row, [editorRowCxToRx] does not decrease as the content
    column grows; each tab passed on the way advances the rendered column
    by at least 1 and at most the tab stop, and the column after the tab is
    a multiple of the tab stop. *)
Theorem cx_to_rx_monotone_and_tab_stops (r : erow) (cx1 cx2 : Z) :
  0 <= cx1 -> cx1 <= cx2 -> cx2 <= size r ->
  editorRowCxToRx r cx1 <= editorRowCxToRx r cx2
  /\ (forall j, cx1 <= j < cx2 -> char_at r j = TAB ->
        1 <= editorRowCxToRx r (j + 1) - editorRowCxToRx r j
          <= KILO_TAB_STOP
        /\ (editorRowCxToRx r (j + 1)) mod KILO_TAB_STOP = 0
        /\ Z.rem (editorRowCxToRx r (j + 1)) KILO_TAB_STOP = 0).
Proof.
  intros H1 H12 _. split.
  - pose proof (CxToRx_strict r (Z.to_nat (cx2 - cx1)) cx1 H1) as Hs.
    replace (cx1 + Z.of_nat (Z.to_nat (cx2 - cx1))) with cx2 in Hs by lia.
    lia.
  - intros j Hj Htab.
    rewrite CxToRx_succ by lia. rewrite Htab.
    pose proof (CxToRx_nonneg r j) as Hn.
    pose proof (rx_step_advance TAB _ Hn) as Ha.
    destruct (rx_step_tab _ Hn) as [_ Hm].
    split; [lia|]. split; [exact Hm|].
    rewrite Z.rem_mod_nonneg; [exact Hm | lia | unfold KILO_TAB_STOP; lia].
Qed.

Lemma cx_to_rx_monotone_and_tab_stops_witness :
  editorRowCxToRx (sample_row) 0
    <= editorRowCxToRx (sample_row) 3
  /\ (forall j, 0 <= j < 3 -> char_at (sample_row) j = TAB ->
        1 <= editorRowCxToRx (sample_row) (j + 1)
             - editorRowCxToRx (sample_row) j
          <= KILO_TAB_STOP
        /\ (editorRowCxToRx (sample_row) (j + 1))
             mod KILO_TAB_STOP = 0
        /\ Z.rem (editorRowCxToRx (sample_row) (j + 1))
             KILO_TAB_STOP = 0).
Proof.
  apply (cx_to_rx_monotone_and_tab_stops (sample_row) 0 3).
  - lia.
  - lia.
  - vm_compute. discriminate.
Defined.

(** C10: for the row that [editorUpdateRow] leaves, the rendered column of
    the full content length is [rsize], and [rsize] is the length of the
    rendered form. *)
Theorem cx_to_rx_of_size_is_rsize (r : erow) :
  editorRowCxToRx (editorUpdateRow r) (size (editorUpdateRow r))
  = rsize (editorUpdateRow r)
  /\ rsize (editorUpdateRow r)
     = Z.of_nat (length (render (editorUpdateRow r))).
Proof.
  unfold editorUpdateRow. cbn [size rsize render]. split.
  - unfold editorRowCxToRx.
    rewrite render_loop_snd by (cbn [snd]; lia). cbn [snd].
    apply CxToRx_loop_chars. reflexivity.
  - apply render_loop_length; cbn [fst snd]; simpl; lia.
Qed.

(** * The key decoder *)

Section KeyDecoder.

Lemma editorReadKey_escape_alone (rest : tty) (r : read_result) :
  no_byte r ->
  editorReadKey (Got ESC :: r :: rest) = Returns (ESCAPE_KEY, rest).
Proof.
  intros Hr. destruct r as [c| |e]; [destruct (Hr c eq_refl)| |];
    reflexivity.
Qed.

Lemma editorReadKey_escape_one (rest : tty) (a : ascii) (r : read_result) :
  no_byte r ->
  editorReadKey (Got ESC :: Got a :: r :: rest)
  = Returns (ESCAPE_KEY, rest).
Proof.
  intros Hr. destruct r as [c| |e]; [destruct (Hr c eq_refl)| |];
    reflexivity.
Qed.

Lemma editorReadKey_escape_digit (rest : tty) (d : ascii)
  (r : read_result) :
  is_digit d = true -> no_byte r ->
  editorReadKey (Got ESC :: Got "["%char :: Got d :: r :: rest)
  = Returns (ESCAPE_KEY, rest).
Proof.
  intros Hd Hr. unfold editorReadKey. cbn [wait_byte bind read1].
  change (Ascii.eqb ESC ESC) with true. cbv iota.
  change (Ascii.eqb "["%char "["%char) with true. cbv iota.
  rewrite Hd.
  destruct r as [c| |e]; [destruct (Hr c eq_refl)| |]; reflexivity.
Qed.

(** After the escape byte the decoder reads two bytes, and a third one
    exactly after ['['] and a digit. *)
Lemma editorReadKey_three_bytes (a b : ascii) (s : tty) :
  forall k rest,
    editorReadKey (Got ESC :: Got a :: Got b :: s) = Returns (k, rest) ->
    rest = s
    \/ (a = "["%char /\ is_digit b = true
        /\ exists r s', s = r :: s' /\ rest = s'
                       /\ (no_byte r -> k = ESCAPE_KEY))
    \/ (s = [] /\ rest = [] /\ k = ESCAPE_KEY).
Proof.
  intros k rest. unfold editorReadKey. cbn [wait_byte bind read1].
  change (Ascii.eqb ESC ESC) with true. cbv iota.
  destruct (Ascii.eqb_spec a "["%char) as [->|Ha].
  - destruct (is_digit b) eqn:Hd.
    + destruct s as [|r s'].
      * cbn [read1]. intros [= <- <-]. right. right. auto.
      * cbn [read1]. intros H. right. left.
        split; [reflexivity|]. split; [reflexivity|].
        exists r, s'. split; [reflexivity|].
        destruct r as [c| |e].
        -- destruct (Ascii.eqb c "~"%char);
             injection H as <- <-;
             (split; [reflexivity|]); intros Hn;
             destruct (Hn c eq_refl).
        -- injection H as <- <-. split; reflexivity.
        -- injection H as <- <-. split; reflexivity.
    + intros [= <- <-]. left. reflexivity.
  - destruct (Ascii.eqb a "O"%char); intros [= <- <-]; left; reflexivity.
Qed.

(** Idle reads before the first byte do not change the key. *)
Lemma editorReadKey_after_wait (inp s : tty) (c : ascii) :
  wait_byte inp = Returns (c, s) ->
  editorReadKey inp = editorReadKey (Got c :: s).
Proof. intros Hw. unfold editorReadKey. rewrite Hw. reflexivity. Qed.

End KeyDecoder.

(** C5: the bytes [ESC [ 5 ~] decode to PageUp; [ESC [ 5] followed by a
    read that times out decodes to the bare Escape key, with the rest of the
    terminal input left in place; and whenever one of the reads made after
    the escape byte gives no byte, the key is the bare Escape key and not a
    named key. *)
Theorem decode_page_up_and_incomplete_sequences :
  (forall rest,
      editorReadKey
        (Got ESC :: Got "["%char :: Got "5"%char :: Got "~"%char :: rest)
      = Returns (PAGE_UP, rest))
  /\ (forall rest,
        editorReadKey
          (Got ESC :: Got "["%char :: Got "5"%char :: Timeout :: rest)
        = Returns (ESCAPE_KEY, rest))
  /\ editorReadKey [Got ESC; Got "["%char; Got "5"%char]
     = Returns (ESCAPE_KEY, [])
  /\ ESCAPE_KEY = 27
  /\ (forall inp s k rest,
        wait_byte inp = Returns (ESC, s) ->
        editorReadKey inp = Returns (k, rest) ->
        (exists r, In r (consumed s rest) /\ no_byte r) ->
        k = ESCAPE_KEY).
Proof.
  split; [reflexivity|]. split; [reflexivity|]. split; [reflexivity|].
  split; [reflexivity|].
  intros inp s k rest Hwait Hkey [r [Hin Hr]].
  rewrite (editorReadKey_after_wait inp s ESC Hwait) in Hkey.
  destruct s as [|r0 s0].
  { injection Hkey as <- <-. reflexivity. }
  destruct r0 as [a| |e].
  2:{ rewrite editorReadKey_escape_alone in Hkey by (intros c; discriminate).
      now injection Hkey as <- <-. }
  2:{ rewrite editorReadKey_escape_alone in Hkey by (intros c; discriminate).
      now injection Hkey as <- <-. }
  destruct s0 as [|r1 s1].
  { injection Hkey as <- <-. reflexivity. }
  destruct r1 as [b| |e].
  2:{ rewrite editorReadKey_escape_one in Hkey by (intros c; discriminate).
      now injection Hkey as <- <-. }
  2:{ rewrite editorReadKey_escape_one in Hkey by (intros c; discriminate).
      now injection Hkey as <- <-. }
  destruct (editorReadKey_three_bytes a b s1 k rest Hkey)
    as [-> | [[-> [Hd [r2 [s2 [-> [-> Hk]]]]]] | [-> [-> ->]]]].
  - exfalso. unfold consumed in Hin. cbn [length] in Hin.
    replace (S (S (length s1)) - length s1)%nat with 2%nat in Hin by lia.
    cbn [firstn In] in Hin.
    destruct Hin as [<- | [<- | []]].
    + exact (Hr a eq_refl).
    + exact (Hr b eq_refl).
  - unfold consumed in Hin. cbn [length] in Hin.
    replace (S (S (S (length s2))) - length s2)%nat with 3%nat in Hin by lia.
    cbn [firstn In] in Hin.
    destruct Hin as [<- | [<- | [<- | []]]].
    + destruct (Hr _ eq_refl).
    + destruct (Hr _ eq_refl).
    + exact (Hk Hr).
  - reflexivity.
Qed.

Lemma decode_page_up_and_incomplete_sequences_witness :
  wait_byte
    [Timeout; Got ESC; Got "["%char; Got "6"%char; Failed true; Got "~"%char]
  = Returns (ESC, [Got "["%char; Got "6"%char; Failed true; Got "~"%char])
  /\ editorReadKey
       [Timeout; Got ESC; Got "["%char; Got "6"%char; Failed true;
        Got "~"%char]
     = Returns (27, [Got "~"%char])
  /\ (exists r,
        In r (consumed [Got "["%char; Got "6"%char; Failed true; Got "~"%char]
                [Got "~"%char])
        /\ no_byte r)
  /\ 27 = ESCAPE_KEY.
Proof.
  assert (Hwait : wait_byte
            [Timeout; Got ESC; Got "["%char; Got "6"%char; Failed true;
             Got "~"%char]
          = Returns (ESC, [Got "["%char; Got "6"%char; Failed true;
                           Got "~"%char])) by reflexivity.
  assert (Hkey : editorReadKey
            [Timeout; Got ESC; Got "["%char; Got "6"%char; Failed true;
             Got "~"%char]
          = Returns (27, [Got "~"%char])) by reflexivity.
  assert (Hno : exists r,
             In r (consumed
                     [Got "["%char; Got "6"%char; Failed true; Got "~"%char]
                     [Got "~"%char])
             /\ no_byte r).
  { exists (Failed true). split.
    - vm_compute. right. right. left. reflexivity.
    - intros c. discriminate. }
  split; [exact Hwait|]. split; [exact Hkey|]. split; [exact Hno|].
  exact (proj2 (proj2 (proj2 (proj2 decode_page_up_and_incomplete_sequences)))
           _ _ _ _ Hwait Hkey Hno).
Defined.

(** * Cursor motion and key dispatch *)

(** C9: the Delete key is decoded from [ESC [ 3 ~] and processing it leaves
    the whole editor state as it was. *)
Theorem delete_key_changes_nothing (E : editorConfig) (rest : tty) :
  editorReadKey
    (Got ESC :: Got "["%char :: Got "3"%char :: Got "~"%char :: rest)
  = Returns (DEL_KEY, rest)
  /\ processKey DEL_KEY E = Returns E
  /\ editorProcessKeypress
       (Got ESC :: Got "["%char :: Got "3"%char :: Got "~"%char :: rest) E
     = Returns (E, rest).
Proof. repeat split. Qed.

Section CursorMotion.

Lemma size_row_at_nonneg (E : editorConfig) (i : Z) :
  wf_rows E -> 0 <= size (row_at E i).
Proof.
  intros [_ Hall]. unfold row_at.
  destruct (nth_in_or_default (Z.to_nat i) (row E) default_row) as [Hin | Hd].
  - rewrite Forall_forall in Hall. rewrite (Hall _ Hin). lia.
  - rewrite Hd. simpl. lia.
Qed.

Lemma row_len_nonneg (E : editorConfig) (i : Z) :
  wf_rows E -> 0 <= row_len E i.
Proof.
  intros Hwf. unfold row_len. destruct (i <? numrows E); [|lia].
  now apply size_row_at_nonneg.
Qed.

End CursorMotion.



Section Paging.



Lemma processKey_page_up (E : editorConfig) :
  0 <= screenRows E ->
  processKey PAGE_UP E
  = Returns (times_loop (Z.to_nat (screenRows E)) ARROW_UP
               (set_cy (rowoff E) E)).
Proof.
  intros Hrows. unfold processKey.
  change (PAGE_UP =? CTRL_KEY (int_of_char "q"%char)) with false.
  change (PAGE_UP =? HOME_KEY) with false.
  change (PAGE_UP =? END_KEY) with false.
  change (PAGE_UP =? PAGE_UP) with true.
  cbv iota. simpl orb. cbv iota. proj_simpl.
  destruct (Z.ltb_spec (screenRows E) 0); [lia | reflexivity].
Qed.

Lemma processKey_page_down (E : editorConfig) :
  0 <= screenRows E ->
  processKey PAGE_DOWN E
  = Returns (times_loop (Z.to_nat (screenRows E)) ARROW_DOWN
               (set_cy (Z.min (rowoff E + screenRows E - 1) (numrows E))
                  E)).
Proof.
  intros Hrows. unfold processKey.
  change (PAGE_DOWN =? CTRL_KEY (int_of_char "q"%char)) with false.
  change (PAGE_DOWN =? HOME_KEY) with false.
  change (PAGE_DOWN =? END_KEY) with false.
  change (PAGE_DOWN =? PAGE_UP) with false.
  change (PAGE_DOWN =? PAGE_DOWN) with true.
  cbv iota. simpl orb. cbv iota. proj_simpl.
  rewrite Z.gtb_ltb.
  destruct (Z.ltb_spec (numrows E) (rowoff E + screenRows E - 1)).
  - rewrite Z.min_r by lia. proj_simpl.
    destruct (Z.ltb_spec (screenRows E) 0); [lia | reflexivity].
  - rewrite Z.min_l by lia. proj_simpl.
    destruct (Z.ltb_spec (screenRows E) 0); [lia | reflexivity].
Qed.

(** With a negative count of text rows the paging loop has no defined
    behaviour. *)
Lemma processKey_page_negative (E : editorConfig) (c : Z) :
  c = PAGE_UP \/ c = PAGE_DOWN ->
  screenRows E < 0 -> processKey c E = Undefined.
Proof.
  intros [-> | ->] Hneg; unfold processKey;
    repeat match goal with
      | |- context [?a =? ?b] =>
          lazymatch a with
          | PAGE_UP => change (a =? b) with (Z.eqb 1007 b)
          | PAGE_DOWN => change (a =? b) with (Z.eqb 1008 b)
          end
      end; vm_compute Z.eqb; simpl orb; cbv iota;
    ifs; try lia; reflexivity.
Qed.

End Paging.



(** * Scrolling *)

Section Scroll.

Lemma scroll_rx_spec (E : editorConfig) :
  scroll_rx E
  = set_rx (if cy E <? numrows E
            then editorRowCxToRx (row_at E (cy E)) (cx E)
            else 0) E.
Proof. unfold scroll_rx, row_at. ifs. all: reflexivity. Qed.

Lemma scroll_rows_spec (E : editorConfig) :
  exists ro,
    scroll_rows E = set_rowoff ro E
    /\ (1 <= screenRows E -> ro <= cy E < ro + screenRows E)
    /\ (1 <= screenRows E -> 0 <= cy E <= numrows E ->
        0 <= rowoff E <= numrows E -> 0 <= ro <= numrows E).
Proof.
  exists (rowoff (scroll_rows E)). unfold scroll_rows. ifs.
  all: split; [destruct E; reflexivity | split; intros; lia].
Qed.

Lemma scroll_cols_spec (E : editorConfig) :
  exists co,
    scroll_cols E = set_coloff co E
    /\ (1 <= screenCols E -> co <= rx E < co + screenCols E).
Proof.
  exists (coloff (scroll_cols E)). unfold scroll_cols. ifs.
  all: split; [destruct E; reflexivity | intros; lia].
Qed.

(** What [editorScroll] leaves alone. *)
Lemma editorScroll_frame (E : editorConfig) :
  cx (editorScroll E) = cx E
  /\ cy (editorScroll E) = cy E
  /\ numrows (editorScroll E) = numrows E
  /\ row (editorScroll E) = row E
  /\ screenRows (editorScroll E) = screenRows E
  /\ screenCols (editorScroll E) = screenCols E.
Proof.
  unfold editorScroll.
  destruct (scroll_cols_spec (scroll_rows (scroll_rx E))) as [co [-> _]].
  destruct (scroll_rows_spec (scroll_rx E)) as [ro [-> _]].
  rewrite scroll_rx_spec. repeat split.
Qed.

Lemma editorScroll_rx (E : editorConfig) :
  rx (editorScroll E)
  = if cy E <? numrows E
    then editorRowCxToRx (row_at E (cy E)) (cx E)
    else 0.
Proof.
  unfold editorScroll.
  destruct (scroll_cols_spec (scroll_rows (scroll_rx E))) as [co [-> _]].
  destruct (scroll_rows_spec (scroll_rx E)) as [ro [-> _]].
  rewrite scroll_rx_spec. reflexivity.
Qed.

Lemma editorScroll_rows (E : editorConfig) :
  1 <= screenRows E ->
  rowoff (editorScroll E) <= cy E
    < rowoff (editorScroll E) + screenRows E.
Proof.
  intros Hr. unfold editorScroll.
  destruct (scroll_cols_spec (scroll_rows (scroll_rx E))) as [co [-> _]].
  destruct (scroll_rows_spec (scroll_rx E)) as [ro [-> [Hro _]]].
  rewrite scroll_rx_spec in *. proj_simpl. auto.
Qed.

Lemma editorScroll_cols (E : editorConfig) :
  1 <= screenCols E ->
  coloff (editorScroll E) <= rx (editorScroll E)
    < coloff (editorScroll E) + screenCols E.
Proof.
  intros Hc. unfold editorScroll.
  destruct (scroll_cols_spec (scroll_rows (scroll_rx E))) as [co [-> Hco]].
  destruct (scroll_rows_spec (scroll_rx E)) as [ro [Hrows _]].
  rewrite Hrows in *. rewrite scroll_rx_spec in *. proj_simpl. auto.
Qed.

(** The first visible row stays a position of the row store. *)
Lemma editorScroll_rowoff_range (E : editorConfig) :
  1 <= screenRows E -> 0 <= cy E <= numrows E ->
  0 <= rowoff E <= numrows E ->
  0 <= rowoff (editorScroll E) <= numrows E.
Proof.
  intros Hr Hy Ho. unfold editorScroll.
  destruct (scroll_cols_spec (scroll_rows (scroll_rx E))) as [co [-> _]].
  destruct (scroll_rows_spec (scroll_rx E)) as [ro [-> [_ Hro]]].
  rewrite scroll_rx_spec in *. proj_simpl. auto.
Qed.

End Scroll.

(** C3: for a cursor within the clamp and a screen of at least one text row
    and one column, after [editorScroll] the cursor row lies in
    [rowoff, rowoff + screenRows) and the rendered column [rx], recomputed
    from [cx], lies in [coloff, coloff + screenCols). *)
Theorem scroll_keeps_cursor_visible (E : editorConfig) :
  cursor_ok E -> 1 <= screenRows E -> 1 <= screenCols E ->
  let E' := editorScroll E in
  rowoff E' <= cy E' < rowoff E' + screenRows E'
  /\ coloff E' <= rx E' < coloff E' + screenCols E'
  /\ rx E' = (if cy E <? numrows E
              then editorRowCxToRx (row_at E (cy E)) (cx E)
              else 0)
  /\ cx E' = cx E /\ cy E' = cy E.
Proof.
  intros _ Hr Hc E'. subst E'.
  destruct (editorScroll_frame E) as [Hx [Hy [_ [_ [Hsr Hsc]]]]].
  rewrite Hx, Hy, Hsr, Hsc.
  split; [now apply editorScroll_rows|].
  split; [now apply editorScroll_cols|].
  split; [apply editorScroll_rx|]. split; reflexivity.
Qed.

Lemma scroll_keeps_cursor_visible_witness :
  let E := set_cx 3 (set_rowoff 2 (set_coloff 40 sample_editor)) in
  let E' := editorScroll E in
  rowoff E' <= cy E' < rowoff E' + screenRows E'
  /\ coloff E' <= rx E' < coloff E' + screenCols E'
  /\ rx E' = 9
  /\ cx E' = cx E /\ cy E' = cy E.
Proof.
  apply (scroll_keeps_cursor_visible
           (set_cx 3 (set_rowoff 2 (set_coloff 40 sample_editor)))).
  - unfold cursor_ok. vm_compute. repeat split; discriminate.
  - vm_compute. discriminate.
  - vm_compute. discriminate.
Defined.

(** * The cursor clamp along a session *)

Section CursorClamp.

Lemma same_view_refl (E : editorConfig) : same_view E E.
Proof. repeat split. Qed.

Lemma same_view_trans (E1 E2 E3 : editorConfig) :
  same_view E1 E2 -> same_view E2 E3 -> same_view E1 E3.
Proof.
  unfold same_view. intros [A1 [A2 [A3 A4]]] [B1 [B2 [B3 B4]]].
  repeat split; congruence.
Qed.

Lemma wf_rows_same_view (E E' : editorConfig) :
  same_view E E' -> wf_rows E -> wf_rows E'.
Proof.
  unfold same_view, wf_rows. intros [A1 [A2 _]] [Hn Hall].
  rewrite A1, A2. split; assumption.
Qed.

Lemma view_ok_same_view (E E' : editorConfig) :
  same_view E E' -> view_ok E -> view_ok E'.
Proof.
  intros Hs [Hwf [Hr Ho]]. split; [now apply (wf_rows_same_view E)|].
  destruct Hs as [A1 [A2 [A3 A4]]]. rewrite A1, A3, A4. tauto.
Qed.

Lemma move_switch_range (key : Z) (E : editorConfig) :
  wf_rows E -> 0 <= cy E <= numrows E -> 0 <= cx E ->
  0 <= cy (move_switch key E) <= numrows E
  /\ 0 <= cx (move_switch key E)
  /\ same_view E (move_switch key E).
Proof.
  intros Hwf Hy Hx.
  pose proof (size_row_at_nonneg E (cy E) Hwf) as H0.
  pose proof (size_row_at_nonneg E (cy E - 1) Hwf) as H1.
  unfold move_switch, current_row, same_view, row_at in *.
  ifs. all: repeat split; lia.
Qed.

Lemma clamp_cx_ok (E : editorConfig) :
  wf_rows E -> 0 <= cy E <= numrows E -> 0 <= cx E ->
  cursor_ok (clamp_cx E) /\ same_view E (clamp_cx E).
Proof.
  intros Hwf Hy Hx.
  pose proof (size_row_at_nonneg E (cy E) Hwf) as H0.
  unfold clamp_cx, cursor_ok, row_len, current_row, same_view, row_at
    in *.
  ifs. all: repeat split; lia.
Qed.

(** One cursor move brings any cursor on a row position into the
    clamp. *)
Lemma editorMoveCursor_ok (key : Z) (E : editorConfig) :
  wf_rows E -> 0 <= cy E <= numrows E -> 0 <= cx E ->
  cursor_ok (editorMoveCursor key E)
  /\ same_view E (editorMoveCursor key E).
Proof.
  intros Hwf Hy Hx. unfold editorMoveCursor.
  destruct (move_switch_range key E Hwf Hy Hx) as [Hy1 [Hx1 Hs1]].
  assert (Hwf1 : wf_rows (move_switch key E))
    by now apply (wf_rows_same_view E).
  assert (Hn : numrows (move_switch key E) = numrows E) by apply Hs1.
  rewrite <- Hn in Hy1.
  destruct (clamp_cx_ok (move_switch key E) Hwf1 Hy1 Hx1) as [Hok Hs2].
  split; [assumption | now apply (same_view_trans E (move_switch key E))].
Qed.

Lemma cursor_ok_weaken (E : editorConfig) :
  cursor_ok E -> 0 <= cy E <= numrows E /\ 0 <= cx E.
Proof. unfold cursor_ok. tauto. Qed.

Lemma times_loop_keeps (n : nat) (key : Z) :
  forall E,
    wf_rows E -> cursor_ok E ->
    cursor_ok (times_loop n key E) /\ same_view E (times_loop n key E).
Proof.
  induction n as [|n IH]; intros E Hwf Hok; simpl.
  - split; [assumption | apply same_view_refl].
  - destruct (cursor_ok_weaken E Hok) as [Hy Hx].
    destruct (editorMoveCursor_ok key E Hwf Hy Hx) as [Hok1 Hs1].
    destruct (IH (editorMoveCursor key E)
                (wf_rows_same_view _ _ Hs1 Hwf) Hok1) as [Hok2 Hs2].
    split; [assumption|].
    now apply (same_view_trans E (editorMoveCursor key E)).
Qed.

Lemma times_loop_clamps (n : nat) (key : Z) (E : editorConfig) :
  (1 <= n)%nat ->
  wf_rows E -> 0 <= cy E <= numrows E -> 0 <= cx E ->
  cursor_ok (times_loop n key E) /\ same_view E (times_loop n key E).
Proof.
  intros Hn Hwf Hy Hx. destruct n as [|n]; [lia|]. simpl.
  destruct (editorMoveCursor_ok key E Hwf Hy Hx) as [Hok1 Hs1].
  destruct (times_loop_keeps n key (editorMoveCursor key E)
              (wf_rows_same_view _ _ Hs1 Hwf) Hok1) as [Hok2 Hs2].
  split; [assumption|].
  now apply (same_view_trans E (editorMoveCursor key E)).
Qed.

Lemma set_cx_home_ok (E : editorConfig) :
  wf_rows E -> cursor_ok E ->
  cursor_ok (set_cx 0 E) /\ same_view E (set_cx 0 E).
Proof.
  intros Hwf [Hy Hx]. pose proof (row_len_nonneg E (cy E) Hwf) as H0.
  unfold cursor_ok, same_view, row_len, row_at in *. ifs.
  all: repeat split; lia.
Qed.

Lemma set_cx_end_ok (E : editorConfig) :
  wf_rows E -> cursor_ok E ->
  let E' := if cy E <? numrows E
            then set_cx (size (row_at E (cy E))) E else E in
  cursor_ok E' /\ same_view E E'.
Proof.
  intros Hwf [Hy Hx]. pose proof (size_row_at_nonneg E (cy E) Hwf) as H0.
  unfold cursor_ok, same_view, row_len, row_at in *. ifs.
  all: repeat split; lia.
Qed.

(** Every navigation key returns and keeps the clamp. *)
Lemma processKey_nav_ok (k : Z) (E : editorConfig) :
  view_ok E -> cursor_ok E -> is_nav_key k ->
  exists E', processKey k E = Returns E'
             /\ cursor_ok E' /\ same_view E E'.
Proof.
  intros [Hwf [Hr Ho]] Hok Hk.
  destruct (cursor_ok_weaken E Hok) as [Hy Hx].
  unfold is_nav_key in Hk. simpl in Hk.
  destruct Hk as [<-|[<-|[<-|[<-|[<-|[<-|[<-|[<-|[]]]]]]]]].
  - exists (editorMoveCursor ARROW_LEFT E).
    split; [reflexivity | now apply editorMoveCursor_ok].
  - exists (editorMoveCursor ARROW_RIGHT E).
    split; [reflexivity | now apply editorMoveCursor_ok].
  - exists (editorMoveCursor ARROW_UP E).
    split; [reflexivity | now apply editorMoveCursor_ok].
  - exists (editorMoveCursor ARROW_DOWN E).
    split; [reflexivity | now apply editorMoveCursor_ok].
  - exists (set_cx 0 E).
    split; [reflexivity | now apply set_cx_home_ok].
  - eexists. split; [reflexivity | now apply set_cx_end_ok].
  - eexists. split; [apply processKey_page_up; lia|].
    assert (Hs : same_view E (set_cy (rowoff E) E)) by (repeat split).
    destruct (times_loop_clamps (Z.to_nat (screenRows E)) ARROW_UP
                (set_cy (rowoff E) E)) as [Hok' Hs'].
    + lia.
    + now apply (wf_rows_same_view E).
    + proj_simpl. lia.
    + proj_simpl. lia.
    + split; [assumption | now apply (same_view_trans E _ _ Hs)].
  - eexists. split; [apply processKey_page_down; lia|].
    set (E1 := set_cy (Z.min (rowoff E + screenRows E - 1) (numrows E)) E).
    assert (Hs : same_view E E1) by (repeat split).
    destruct (times_loop_clamps (Z.to_nat (screenRows E)) ARROW_DOWN E1)
      as [Hok' Hs'].
    + lia.
    + now apply (wf_rows_same_view E).
    + subst E1. proj_simpl. lia.
    + subst E1. proj_simpl. lia.
    + split; [assumption | now apply (same_view_trans E _ _ Hs)].
Qed.

Lemma cursor_ok_scroll (E : editorConfig) :
  cursor_ok E -> cursor_ok (editorScroll E).
Proof.
  destruct (editorScroll_frame E) as [Hx [Hy [Hn [Hrow _]]]].
  unfold cursor_ok, row_len, row_at. rewrite Hx, Hy, Hn, Hrow. tauto.
Qed.

Lemma view_ok_scroll (E : editorConfig) :
  cursor_ok E -> view_ok E -> view_ok (editorScroll E).
Proof.
  intros [Hy _] [[Hnum Hall] [Hr Ho]].
  pose proof (editorScroll_rowoff_range E Hr Hy Ho) as Hro.
  destruct (editorScroll_frame E) as [_ [_ [Hn [Hrow [Hsr _]]]]].
  unfold view_ok, wf_rows. rewrite Hn, Hrow, Hsr. tauto.
Qed.

Lemma run_keys_ok (ks : list Z) :
  forall E,
    view_ok E -> cursor_ok E -> Forall is_nav_key ks ->
    exists E', run_keys ks E = Returns E' /\ cursor_ok E' /\ view_ok E'.
Proof.
  induction ks as [|k ks IH]; intros E Hv Hok Hks.
  - exists E. split; [reflexivity | split; assumption].
  - inversion Hks as [|k' ks' Hk Hks']; subst.
    destruct (processKey_nav_ok k E Hv Hok Hk) as [E1 [Hp [Hok1 Hs1]]].
    simpl. rewrite Hp. simpl.
    apply IH; [now apply (view_ok_same_view E) | assumption | assumption].
Qed.

Lemma main_loop_ok (ks : list Z) :
  forall E,
    view_ok E -> cursor_ok E -> Forall is_nav_key ks ->
    exists E', main_loop ks E = Returns E' /\ cursor_ok E' /\ view_ok E'.
Proof.
  induction ks as [|k ks IH]; intros E Hv Hok Hks.
  - exists E. split; [reflexivity | split; assumption].
  - inversion Hks as [|k' ks' Hk Hks']; subst.
    pose proof (cursor_ok_scroll E Hok) as Hok0.
    pose proof (view_ok_scroll E Hok Hv) as Hv0.
    destruct (processKey_nav_ok k (editorScroll E) Hv0 Hok0 Hk)
      as [E1 [Hp [Hok1 Hs1]]].
    simpl. unfold editorRefreshScreen. rewrite Hp. simpl.
    apply IH; [now apply (view_ok_same_view (editorScroll E))
              | assumption | assumption].
Qed.

End CursorClamp.

(** C2, as the specification words it, fails: on a terminal of two lines no
    text row is visible, the first refresh of an empty buffer leaves
    [rowoff = 1], and PageUp then puts the cursor on row 1 of a row store
    with no rows. *)
Lemma page_up_leaves_the_clamp_without_text_rows :
  ~ (forall E ks,
        wf_rows E -> cx E = 0 -> cy E = 0 -> Forall is_nav_key ks ->
        forall E', run_keys ks E = Returns E' -> cursor_ok E').
Proof.
  intros H.
  assert (Hwf : wf_rows two_line_editor)
    by (split; [reflexivity | constructor]).
  assert (Hnav : Forall is_nav_key [PAGE_UP]).
  { constructor; [|constructor]. unfold is_nav_key. simpl. tauto. }
  specialize (H two_line_editor [PAGE_UP] Hwf eq_refl eq_refl Hnav
                _ eq_refl).
  destruct H as [[_ Hy] _]. vm_compute in Hy. apply Hy. reflexivity.
Qed.

(** The hypothesis on [rowoff] is needed as well: with [rowoff] past the
    row store, PageUp on a screen of one text row leaves the cursor past the
    row store. *)
Lemma page_up_from_rowoff_past_the_store :
  exists E',
    processKey PAGE_UP
      (mk_editorConfig 0 0 0 5 0 1 80 0 [] None String.EmptyString 0)
    = Returns E'
    /\ cy E' = 4 /\ numrows E' = 0.
Proof. eexists. split; [reflexivity|]. split; reflexivity. Qed.

(** The same run from start-up: [initEditor] on a terminal of two lines,
    then one turn of the loop of [main] with the PageUp key. *)
Lemma two_line_session_page_up :
  exists E0 E',
    initEditor (Some (2, 80)) = Returns E0
    /\ editorRefreshScreen E0 = two_line_editor
    /\ main_loop [PAGE_UP] E0 = Returns E'
    /\ cy E' = 1 /\ numrows E' = 0.
Proof.
  eexists. eexists. split; [reflexivity|]. split; [reflexivity|].
  split; [reflexivity|]. split; reflexivity.
Qed.

(** C2 (amended): from a state with [cx = 0] and [cy = 0] in which the row
    store is well formed, at least one text row is visible and [rowoff] is a
    position of the row store, every finite sequence of navigation keys
    returns and leaves [0 <= cy <= numrows] and [0 <= cx <= row_len(cy)],
    whether or not the screen is refreshed before each key. *)
Theorem navigation_keeps_cursor_clamped (E : editorConfig) (ks : list Z) :
  view_ok E -> cx E = 0 -> cy E = 0 -> Forall is_nav_key ks ->
  (exists E', run_keys ks E = Returns E' /\ cursor_ok E')
  /\ (exists E', main_loop ks E = Returns E' /\ cursor_ok E').
Proof.
  intros Hv Hx Hy Hks.
  assert (Hok : cursor_ok E).
  { destruct Hv as [Hwf _].
    pose proof (row_len_nonneg E (cy E) Hwf) as H0.
    destruct Hwf as [Hn _]. unfold cursor_ok. lia. }
  split.
  - destruct (run_keys_ok ks E Hv Hok Hks) as [E' [Hr [Hc _]]]. eauto.
  - destruct (main_loop_ok ks E Hv Hok Hks) as [E' [Hr [Hc _]]]. eauto.
Qed.

Lemma navigation_keeps_cursor_clamped_witness :
  (exists E',
      run_keys [END_KEY; PAGE_DOWN; ARROW_LEFT; PAGE_UP] sample_editor
      = Returns E' /\ cursor_ok E')
  /\ (exists E',
        main_loop [END_KEY; PAGE_DOWN; ARROW_LEFT; PAGE_UP] sample_editor
        = Returns E' /\ cursor_ok E').
Proof.
  apply (navigation_keeps_cursor_clamped sample_editor
           [END_KEY; PAGE_DOWN; ARROW_LEFT; PAGE_UP]).
  - split; [split; [reflexivity | repeat constructor]|].
    vm_compute. repeat split; discriminate.
  - reflexivity.
  - reflexivity.
  - repeat constructor; unfold is_nav_key; simpl; tauto.
Defined.

(** * Loading a file *)

Section FileLoad.

(** [getline] reads the first line of the file and leaves the others. *)
Lemma lines_of_getline (fp : list ascii) :
  fp <> [] ->
  lines_of fp
  = fst (getline_split fp) :: lines_of (snd (getline_split fp)).
Proof.
  induction fp as [|c tl IH]; intros Hne; [contradiction|].
  simpl. destruct (Ascii.eqb c LF).
  - reflexivity.
  - destruct tl as [|c' tl'].
    + reflexivity.
    + rewrite IH by discriminate. reflexivity.
Qed.

Lemma getline_split_concat (fp : list ascii) :
  fst (getline_split fp) ++ snd (getline_split fp) = fp.
Proof.
  induction fp as [|c tl IH]; simpl.
  - reflexivity.
  - destruct (Ascii.eqb c LF); simpl; [reflexivity | now rewrite IH].
Qed.

Lemma getline_split_progress (fp : list ascii) :
  fp <> [] ->
  (length (snd (getline_split fp)) < length fp)%nat.
Proof.
  induction fp as [|c tl IH]; intros Hne; [contradiction|].
  simpl. destruct (Ascii.eqb c LF); simpl.
  - lia.
  - destruct tl as [|c' tl']; [simpl; lia|].
    specialize (IH ltac:(discriminate)). lia.
Qed.

(** The lines of a file, put end to end, are the file. *)
Lemma lines_of_concat (fp : list ascii) : concat (lines_of fp) = fp.
Proof.
  induction fp as [|c tl IH]; simpl.
  - reflexivity.
  - destruct (Ascii.eqb c LF); simpl.
    + now rewrite IH.
    + destruct (lines_of tl) as [|l ls]; simpl in *; now rewrite <- IH.
Qed.

(** A line feed is the last byte of its line, and no line is empty. *)
Lemma lines_of_shape (fp : list ascii) :
  Forall (fun l => l <> []
                   /\ forall i, (S i < length l)%nat -> nth i l NUL <> LF)
    (lines_of fp).
Proof.
  induction fp as [|c tl IH]; simpl.
  - constructor.
  - destruct (Ascii.eqb_spec c LF) as [->|Hc].
    + constructor; [|assumption]. split; [discriminate|].
      intros i Hi. simpl in Hi. lia.
    + destruct (lines_of tl) as [|l ls].
      * constructor; [|constructor]. split; [discriminate|].
        intros i Hi. simpl in Hi. lia.
      * inversion IH as [|l' ls' [Hl Hlf] Hrest]; subst.
        constructor; [|assumption]. split; [discriminate|].
        intros [|i] Hi; simpl; [assumption|].
        apply Hlf. simpl in Hi. lia.
Qed.

Lemma strip_loop_le (line : list ascii) (n : nat) :
  (strip_loop line n <= n)%nat.
Proof.
  induction n as [|n IH]; simpl; [lia|].
  destruct (Ascii.eqb (nth n line NUL) LF || Ascii.eqb (nth n line NUL) CR);
    lia.
Qed.

Lemma rstrip_crlf_snoc (l : list ascii) (c : ascii) :
  rstrip_crlf (l ++ [c])
  = if is_crlf c then rstrip_crlf l else l ++ [c].
Proof.
  unfold rstrip_crlf. rewrite rev_app_distr. simpl.
  destruct (is_crlf c); [reflexivity|].
  simpl. now rewrite rev_involutive.
Qed.

Lemma firstn_succ_nth (l : list ascii) (n : nat) :
  (n < length l)%nat ->
  firstn (S n) l = firstn n l ++ [nth n l NUL].
Proof.
  revert l. induction n as [|n IH]; intros [|c l] Hn; simpl in *;
    try lia.
  - reflexivity.
  - rewrite <- IH by lia. reflexivity.
Qed.

(** The stripping loop keeps the line without its trailing carriage
    returns and line feeds. *)
Lemma strip_loop_firstn (line : list ascii) (n : nat) :
  (n <= length line)%nat ->
  firstn (strip_loop line n) line = rstrip_crlf (firstn n line).
Proof.
  induction n as [|n IH]; intros Hn.
  - reflexivity.
  - rewrite (firstn_succ_nth line n) by lia.
    rewrite rstrip_crlf_snoc. unfold is_crlf. simpl strip_loop.
    destruct (Ascii.eqb (nth n line NUL) LF || Ascii.eqb (nth n line NUL) CR).
    + apply IH. lia.
    + apply firstn_succ_nth. lia.
Qed.

Lemma firstn_strip_length (line : list ascii) :
  length (firstn (strip_loop line (length line)) line)
  = strip_loop line (length line).
Proof.
  apply firstn_length_le. apply strip_loop_le.
Qed.

(** The row appended for a line is the row of the stripped line. *)
Lemma editorAppendRow_line (line : list ascii) (E : editorConfig) :
  editorAppendRow line (strip_loop line (length line)) E
  = set_rows (numrows E + 1) (row E ++ [row_of (rstrip_crlf line)]) E.
Proof.
  assert (H : firstn (strip_loop line (length line)) line
              = rstrip_crlf line).
  { rewrite strip_loop_firstn by lia. now rewrite firstn_all. }
  unfold editorAppendRow, row_of. rewrite <- H.
  rewrite firstn_strip_length. reflexivity.
Qed.

Lemma open_loop_lines (fuel : nat) :
  forall fp E,
    (length fp < fuel)%nat ->
    open_loop fuel fp E = Some (with_lines (lines_of fp) E).
Proof.
  induction fuel as [|fuel IH]; intros fp E Hfuel; [lia|].
  destruct fp as [|c tl].
  - simpl. unfold with_lines, set_rows. simpl.
    rewrite app_nil_r, Z.add_0_r. now destruct E.
  - cbn [open_loop getline].
    pose proof (getline_split_progress (c :: tl) ltac:(discriminate)) as Hp.
    rewrite (lines_of_getline (c :: tl)) by discriminate.
    destruct (getline_split (c :: tl)) as [line rest]. cbn [fst snd] in *.
    rewrite IH by lia. rewrite editorAppendRow_line.
    unfold with_lines, set_rows. cbn [numrows row cx cy rx rowoff coloff
      screenRows screenCols filename status_msg statusmsg_time].
    f_equal. f_equal.
    + cbn [length]. lia.
    + cbn [map]. rewrite <- app_assoc. reflexivity.
Qed.

End FileLoad.

Section Stripping.

Lemma drop_crlf_split (l : list ascii) :
  exists p,
    l = p ++ drop_crlf l
    /\ forallb is_crlf p = true
    /\ (forall c tl, drop_crlf l = c :: tl -> is_crlf c = false).
Proof.
  induction l as [|c l [p [Hl [Hp Hhd]]]].
  - exists []. repeat split. intros c tl H. discriminate H.
  - simpl. destruct (is_crlf c) eqn:Hc.
    + exists (c :: p). simpl. rewrite Hc, Hp. repeat split.
      * now rewrite <- Hl.
      * exact Hhd.
    + exists []. repeat split. intros c' tl [= <- _]. exact Hc.
Qed.

(** [rstrip_crlf l] is [l] without a suffix made of carriage returns and
    line feeds only, and it does not end with one. *)
Lemma rstrip_crlf_spec (l : list ascii) :
  exists suffix,
    l = rstrip_crlf l ++ suffix
    /\ forallb is_crlf suffix = true
    /\ (forall init c, rstrip_crlf l = init ++ [c] -> is_crlf c = false).
Proof.
  destruct (drop_crlf_split (rev l)) as [p [Hl [Hp Hhd]]].
  exists (rev p). unfold rstrip_crlf. repeat split.
  - rewrite <- rev_app_distr, <- Hl. now rewrite rev_involutive.
  - rewrite forallb_forall in *. intros c Hc. apply Hp.
    now apply in_rev.
  - intros init c Hrev.
    apply (f_equal (@rev ascii)) in Hrev.
    rewrite rev_involutive, rev_app_distr in Hrev. simpl in Hrev.
    exact (Hhd _ _ Hrev).
Qed.

End Stripping.

(** C6: after [initEditor], [editorOpen] on a file that can be opened
    returns with one row per line of the file, in the order of the file;
    the content of each row is its line without its trailing carriage
    returns and line feeds. *)
Theorem load_gives_one_row_per_line
  (ws_rows ws_cols : Z) (name : String.string) (bytes : list ascii) :
  exists E0 E,
    initEditor (Some (ws_rows, ws_cols)) = Returns E0
    /\ editorOpen name (Some bytes) E0 = Returns E
    /\ concat (lines_of bytes) = bytes
    /\ numrows E = Z.of_nat (length (lines_of bytes))
    /\ length (row E) = length (lines_of bytes)
    /\ map chars (row E) = map rstrip_crlf (lines_of bytes)
    /\ row E = map (fun l => row_of (rstrip_crlf l)) (lines_of bytes)
    /\ (forall i, (i < length (lines_of bytes))%nat ->
          chars (row_at E (Z.of_nat i))
          = rstrip_crlf (nth i (lines_of bytes) [])
          /\ size (row_at E (Z.of_nat i))
             = Z.of_nat (length (rstrip_crlf (nth i (lines_of bytes) [])))).
Proof.
  eexists. eexists. split; [reflexivity|].
  unfold editorOpen. rewrite open_loop_lines by lia.
  split; [reflexivity|].
  unfold with_lines, set_rows, set_filename.
  cbn [numrows row app]. split; [apply lines_of_concat|].
  split; [lia|]. split; [apply length_map|].
  assert (Hchars : map chars
                     (map (fun l => row_of (rstrip_crlf l)) (lines_of bytes))
                   = map rstrip_crlf (lines_of bytes)).
  { rewrite map_map. apply map_ext. reflexivity. }
  split; [exact Hchars|]. split; [reflexivity|].
  intros i Hi. unfold row_at. cbn [row]. rewrite Nat2Z.id.
  rewrite (nth_indep _ default_row (row_of (rstrip_crlf []))).
  - rewrite (map_nth (fun l => row_of (rstrip_crlf l))). split; reflexivity.
  - now rewrite length_map.
Qed.

(** * The rendered form as a tab expansion *)

Section RenderIsExpansion.

Lemma char_at_middle (r : erow) (pre tl : list ascii) (c : ascii) :
  chars r = pre ++ c :: tl ->
  char_at r (Z.of_nat (length pre)) = c.
Proof.
  intros Hc. unfold char_at. rewrite Nat2Z.id, Hc. apply nth_middle.
Qed.

Lemma tab_width_nat (n : nat) :
  Z.to_nat (KILO_TAB_STOP - Z.of_nat n mod KILO_TAB_STOP)
  = (Z.to_nat KILO_TAB_STOP - n mod Z.to_nat KILO_TAB_STOP)%nat.
Proof.
  unfold KILO_TAB_STOP. change (Z.to_nat 8) with 8%nat.
  pose proof (Nat.mod_upper_bound n 8 ltac:(lia)) as Hb.
  apply Nat2Z.inj. rewrite Z2Nat.id by lia.
  rewrite Nat2Z.inj_sub by lia. rewrite Nat2Z.inj_mod. reflexivity.
Qed.

Lemma render_step_expand (c : ascii) (buf : list ascii) :
  render_step c (buf, Z.of_nat (length buf))
  = (buf ++ expand_from (length buf) [c],
     Z.of_nat (length (buf ++ expand_from (length buf) [c]))).
Proof.
  destruct (Ascii.eqb_spec c TAB) as [->|Hc].
  - rewrite render_step_tab by lia.
    cbn [expand_from]. change (Ascii.eqb TAB TAB) with true. cbv iota.
    rewrite app_nil_r, tab_width_nat.
    f_equal. rewrite length_app, repeat_length, <- tab_width_nat.
    destruct (rx_step_tab (Z.of_nat (length buf))) as [-> _]; [lia|].
    unfold KILO_TAB_STOP. lia.
  - unfold render_step, put. cbn [expand_from fst snd].
    destruct (Ascii.eqb_spec c TAB); [contradiction|].
    f_equal. rewrite length_app. simpl. lia.
Qed.

Lemma expand_from_cons (col : nat) (c : ascii) (tl : list ascii) :
  expand_from col (c :: tl)
  = expand_from col [c]
    ++ expand_from (col + length (expand_from col [c])) tl.
Proof.
  cbn [expand_from]. destruct (Ascii.eqb c TAB).
  - rewrite app_nil_r, repeat_length. reflexivity.
  - simpl. do 2 f_equal. lia.
Qed.

Lemma render_loop_expand (r : erow) (content : list ascii) :
  forall pre buf,
    chars r = pre ++ content ->
    render_loop r (length content) (Z.of_nat (length pre))
      (buf, Z.of_nat (length buf))
    = (buf ++ expand_from (length buf) content,
       Z.of_nat (length (buf ++ expand_from (length buf) content))).
Proof.
  induction content as [|c tl IH]; intros pre buf Hc.
  - simpl. now rewrite app_nil_r.
  - cbn [length render_loop].
    rewrite (char_at_middle r pre tl c Hc).
    rewrite render_step_expand.
    replace (Z.of_nat (length pre) + 1)
      with (Z.of_nat (length (pre ++ [c])))
      by (rewrite length_app; simpl; lia).
    rewrite IH by (rewrite <- app_assoc; exact Hc).
    rewrite (expand_from_cons (length buf) c tl).
    rewrite length_app, <- !app_assoc. reflexivity.
Qed.

(** The rendered form that [editorUpdateRow] builds for a content is its
    tab expansion from column 0. *)
Lemma render_row_of (content : list ascii) :
  render (row_of content) = expand_from 0 content
  /\ chars (row_of content) = content
  /\ size (row_of content) = Z.of_nat (length content).
Proof.
  unfold row_of, editorUpdateRow. cbn [render chars size].
  rewrite Nat2Z.id.
  rewrite (render_loop_expand _ content [] []) by reflexivity.
  repeat split.
Qed.

(** Without a tab the rendered form is the content and the rendered
    column is the content column. *)
Lemma expand_from_no_tab (content : list ascii) :
  ~ In TAB content -> forall col, expand_from col content = content.
Proof.
  induction content as [|c tl IH]; intros Hno col; simpl.
  - reflexivity.
  - destruct (Ascii.eqb_spec c TAB) as [->|Hc].
    + destruct Hno. now left.
    + f_equal. apply IH. intros Hin. apply Hno. now right.
Qed.

End RenderIsExpansion.

(** * The render buffer is large enough *)

Section RenderCapacity.



End RenderCapacity.

(** * More on the key decoder *)

Section KeyDecoderTable.

Lemma tilde_key_named (d : ascii) (k : Z) :
  tilde_key d = k -> 1000 <= k ->
  In (str "["%string ++ [d; "~"%char], k) escape_sequences.
Proof.
  intros <- Hk.
  destruct d as [[] [] [] [] [] [] [] []];
    vm_compute in Hk; try (exfalso; apply Hk; reflexivity);
    vm_compute; tauto.
Qed.

Lemma bracket_key_named (b : ascii) (k : Z) :
  bracket_key b = k -> 1000 <= k ->
  In (str "["%string ++ [b], k) escape_sequences.
Proof.
  intros <- Hk.
  destruct b as [[] [] [] [] [] [] [] []];
    vm_compute in Hk; try (exfalso; apply Hk; reflexivity);
    vm_compute; tauto.
Qed.

Lemma o_key_named (b : ascii) (k : Z) :
  o_key b = k -> 1000 <= k ->
  In (str "O"%string ++ [b], k) escape_sequences.
Proof.
  intros <- Hk.
  destruct b as [[] [] [] [] [] [] [] []];
    vm_compute in Hk; try (exfalso; apply Hk; reflexivity);
    vm_compute; tauto.
Qed.

Lemma escape_key_small : ~ 1000 <= int_of_char ESC.
Proof. vm_compute. intros H. apply H. reflexivity. Qed.

Lemma int_of_char_range (c : ascii) : -128 <= int_of_char c <= 127.
Proof.
  destruct c as [[] [] [] [] [] [] [] []]; vm_compute;
    split; discriminate.
Qed.

Lemma tilde_key_cases (d : ascii) :
  tilde_key d = int_of_char ESC \/ In (tilde_key d) named_keys.
Proof.
  destruct d as [[] [] [] [] [] [] [] []]; vm_compute; tauto.
Qed.

Lemma bracket_key_cases (b : ascii) :
  bracket_key b = int_of_char ESC \/ In (bracket_key b) named_keys.
Proof.
  destruct b as [[] [] [] [] [] [] [] []]; vm_compute; tauto.
Qed.

Lemma o_key_cases (b : ascii) :
  o_key b = int_of_char ESC \/ In (o_key b) named_keys.
Proof.
  destruct b as [[] [] [] [] [] [] [] []]; vm_compute; tauto.
Qed.

(** Decoding after the escape byte, from the named key back to the bytes. *)
Lemma escape_decoded_from_table (s : tty) (k : Z) (rest : tty) :
  editorReadKey (Got ESC :: s) = Returns (k, rest) -> 1000 <= k ->
  exists bytes, In (bytes, k) escape_sequences /\ s = map Got bytes ++ rest.
Proof.
  intros Hkey Hk. unfold editorReadKey in Hkey.
  cbn [wait_byte bind] in Hkey.
  change (Ascii.eqb ESC ESC) with true in Hkey. cbv iota in Hkey.
  destruct s as [|r0 s0]; cbn [read1] in Hkey.
  { injection Hkey as <- <-. destruct (escape_key_small Hk). }
  destruct r0 as [a| |e];
    try (injection Hkey as <- <-; destruct (escape_key_small Hk)).
  destruct s0 as [|r1 s1]; cbn [read1] in Hkey.
  { injection Hkey as <- <-. destruct (escape_key_small Hk). }
  destruct r1 as [b| |e];
    try (injection Hkey as <- <-; destruct (escape_key_small Hk)).
  destruct (Ascii.eqb_spec a "["%char) as [->|Ha].
  - destruct (is_digit b) eqn:Hd.
    + destruct s1 as [|r2 s2]; cbn [read1] in Hkey.
      { injection Hkey as <- <-. destruct (escape_key_small Hk). }
      destruct r2 as [c| |e];
        try (injection Hkey as <- <-; destruct (escape_key_small Hk)).
      destruct (Ascii.eqb_spec c "~"%char) as [->|Hc].
      * injection Hkey as Hkey <-.
        exists (str "["%string ++ [b; "~"%char]). split.
        -- now apply tilde_key_named.
        -- reflexivity.
      * injection Hkey as <- <-. destruct (escape_key_small Hk).
    + injection Hkey as Hkey <-.
      exists (str "["%string ++ [b]). split.
      * now apply bracket_key_named.
      * reflexivity.
  - destruct (Ascii.eqb_spec a "O"%char) as [->|Ho].
    + injection Hkey as Hkey <-.
      exists (str "O"%string ++ [b]). split.
      * now apply o_key_named.
      * reflexivity.
    + injection Hkey as <- <-. destruct (escape_key_small Hk).
Qed.

(** Decoding after the escape byte, from the bytes to the named key. *)
Lemma table_decodes (bytes : list ascii) (k : Z) (rest : tty) :
  In (bytes, k) escape_sequences ->
  editorReadKey (Got ESC :: map Got bytes ++ rest) = Returns (k, rest)
  /\ 1000 <= k.
Proof.
  intros Hin. unfold escape_sequences in Hin. cbn [In] in Hin.
  repeat (destruct Hin as [Hin | Hin];
          [ injection Hin as <- <-; split; [reflexivity | discriminate] | ]).
  destruct Hin.
Qed.

Lemma wait_byte_suffix (inp : tty) :
  forall c s, wait_byte inp = Returns (c, s) ->
  exists pre, inp = pre ++ Got c :: s /\ Forall idle pre.
Proof.
  induction inp as [|r inp IH]; intros c s Hw; simpl in Hw.
  - discriminate.
  - destruct r as [c'| |[]].
    + injection Hw as <- <-. exists []. split; [reflexivity | constructor].
    + destruct (IH c s Hw) as [pre [-> Hpre]].
      exists (Timeout :: pre). split; [reflexivity|].
      constructor; [left; reflexivity | assumption].
    + destruct (IH c s Hw) as [pre [-> Hpre]].
      exists (Failed true :: pre). split; [reflexivity|].
      constructor; [right; reflexivity | assumption].
    + discriminate.
Qed.

Lemma wait_byte_blocks (inp : tty) :
  wait_byte inp = Blocks <-> Forall idle inp.
Proof.
  induction inp as [|r inp IH]; simpl.
  - split; [constructor | reflexivity].
  - destruct r as [c| |[]].
    + split; [discriminate|]. intros H. inversion H as [|? ? [Hi|Hi] _]; discriminate.
    + rewrite IH. split; intros H.
      * constructor; [left; reflexivity | assumption].
      * now inversion H.
    + rewrite IH. split; intros H.
      * constructor; [right; reflexivity | assumption].
      * now inversion H.
    + split; [discriminate|]. intros H. inversion H as [|? ? [Hi|Hi] _]; discriminate.
Qed.

Lemma wait_byte_exits (inp : tty) (st : Z) :
  wait_byte inp = Exits st <->
  st = 1 /\ exists pre post, inp = pre ++ Failed false :: post /\ Forall idle pre.
Proof.
  induction inp as [|r inp IH]; simpl.
  - split; [discriminate|]. intros [_ [pre [post [H _]]]].
    destruct pre; discriminate.
  - destruct r as [c| |[]].
    + split; [discriminate|]. intros [_ [pre [post [H Hpre]]]].
      destruct pre as [|r pre]; [discriminate|].
      injection H as <- _. inversion Hpre as [|? ? [Hi|Hi] _]; discriminate.
    + rewrite IH. split.
      * intros [-> [pre [post [-> Hpre]]]]. split; [reflexivity|].
        exists (Timeout :: pre), post. split; [reflexivity|].
        constructor; [left; reflexivity | assumption].
      * intros [-> [pre [post [H Hpre]]]]. split; [reflexivity|].
        destruct pre as [|r pre]; [discriminate|].
        injection H as <- ->. exists pre, post. split; [reflexivity|].
        now inversion Hpre.
    + rewrite IH. split.
      * intros [-> [pre [post [-> Hpre]]]]. split; [reflexivity|].
        exists (Failed true :: pre), post. split; [reflexivity|].
        constructor; [right; reflexivity | assumption].
      * intros [-> [pre [post [H Hpre]]]]. split; [reflexivity|].
        destruct pre as [|r pre]; [discriminate|].
        injection H as <- ->. exists pre, post. split; [reflexivity|].
        now inversion Hpre.
    + split.
      * intros [= <-]. split; [reflexivity|].
        exists [], inp. split; [reflexivity | constructor].
      * intros [-> _]. reflexivity.
Qed.

Lemma wait_byte_defined (inp : tty) : wait_byte inp <> Undefined.
Proof.
  induction inp as [|r inp IH]; simpl; [discriminate|].
  destruct r as [c| |[]]; try assumption; discriminate.
Qed.

(** Once the first byte is there, the decoder returns. *)
Lemma editorReadKey_after_byte (c : ascii) (s : tty) :
  exists k rest n,
    editorReadKey (Got c :: s) = Returns (k, rest)
    /\ (n <= 3)%nat /\ rest = skipn n s
    /\ (c <> ESC -> k = int_of_char c /\ n = O)
    /\ (k = int_of_char c \/ In k named_keys).
Proof.
  assert (Hesc : forall (rest : tty) (n : nat),
             (n <= 3)%nat -> rest = skipn n s ->
             exists k rest' n',
               Returns (int_of_char ESC, rest) = Returns (k, rest')
               /\ (n' <= 3)%nat /\ rest' = skipn n' s
               /\ (ESC <> ESC -> k = int_of_char ESC /\ n' = O)
               /\ (k = int_of_char ESC \/ In k named_keys)).
  { intros rest n Hn Hrest. exists (int_of_char ESC), rest, n.
    split; [reflexivity|]. split; [assumption|]. split; [assumption|].
    split; [intros H; destruct (H eq_refl) | left; reflexivity]. }
  assert (Hnamed : forall (k : Z) (rest : tty) (n : nat),
             (n <= 3)%nat -> rest = skipn n s ->
             k = int_of_char ESC \/ In k named_keys ->
             exists k' rest' n',
               Returns (k, rest) = Returns (k', rest')
               /\ (n' <= 3)%nat /\ rest' = skipn n' s
               /\ (ESC <> ESC -> k' = int_of_char ESC /\ n' = O)
               /\ (k' = int_of_char ESC \/ In k' named_keys)).
  { intros k rest n Hn Hrest Hk. exists k, rest, n.
    split; [reflexivity|]. split; [assumption|]. split; [assumption|].
    split; [intros H; destruct (H eq_refl) | assumption]. }
  unfold editorReadKey. cbn [wait_byte bind].
  destruct (Ascii.eqb_spec c ESC) as [Hc|Hc].
  2:{ exists (int_of_char c), s, O.
      split; [reflexivity|]. split; [lia|]. split; [reflexivity|].
      split; [intros _; split; reflexivity | left; reflexivity]. }
  subst c.
  destruct s as [|r0 s0]; cbn [read1].
  { apply (Hesc [] O); [lia | reflexivity]. }
  destruct r0 as [a| |e];
    try (apply (Hesc s0 1%nat); [lia | reflexivity]).
  destruct s0 as [|r1 s1]; cbn [read1].
  { apply (Hesc [] 1%nat); [lia | reflexivity]. }
  destruct r1 as [b| |e];
    try (apply (Hesc s1 2%nat); [lia | reflexivity]).
  destruct (Ascii.eqb a "["%char).
  - destruct (is_digit b).
    + destruct s1 as [|r2 s2]; cbn [read1].
      { apply (Hesc [] 2%nat); [lia | reflexivity]. }
      destruct r2 as [d| |e];
        try (apply (Hesc s2 3%nat); [lia | reflexivity]).
      destruct (Ascii.eqb d "~"%char).
      * apply (Hnamed _ s2 3%nat); [lia | reflexivity | apply tilde_key_cases].
      * apply (Hesc s2 3%nat); [lia | reflexivity].
    + apply (Hnamed _ s1 2%nat); [lia | reflexivity | apply bracket_key_cases].
  - destruct (Ascii.eqb a "O"%char).
    + apply (Hnamed _ s1 2%nat); [lia | reflexivity | apply o_key_cases].
    + apply (Hesc s1 2%nat); [lia | reflexivity].
Qed.

End KeyDecoderTable.

(** X1: after the escape byte, [editorReadKey] returns a named key exactly
    for the fifteen byte sequences of its [return] statements, and it then
    leaves the input that follows the sequence. *)
Theorem named_keys_come_from_the_table (s : tty) (k : Z) (rest : tty) :
  (editorReadKey (Got ESC :: s) = Returns (k, rest) /\ 1000 <= k)
  <-> (exists bytes,
          In (bytes, k) escape_sequences /\ s = map Got bytes ++ rest).
Proof.
  split.
  - intros [Hkey Hk]. now apply escape_decoded_from_table.
  - intros [bytes [Hin ->]]. now apply table_decodes.
Qed.

(** X2: how a call of [editorReadKey] ends.  It waits for ever exactly when
    no read ever gives a byte or an error other than [EAGAIN]; it exits,
    with status 1, exactly when such an error comes before the first byte;
    otherwise it returns, having read at most three times after the first
    byte, and the key is the value of that byte or a named key; a first
    byte other than the escape byte is returned as it is with nothing more
    read. *)
Theorem editorReadKey_outcomes (inp : tty) :
  (editorReadKey inp = Blocks <-> Forall idle inp)
  /\ (forall st, editorReadKey inp = Exits st <->
        st = 1 /\ exists pre post,
                   inp = pre ++ Failed false :: post /\ Forall idle pre)
  /\ editorReadKey inp <> Undefined
  /\ (forall k rest, editorReadKey inp = Returns (k, rest) ->
        exists pre c s n,
          inp = pre ++ Got c :: s /\ Forall idle pre
          /\ (n <= 3)%nat /\ rest = skipn n s
          /\ (c <> ESC -> k = int_of_char c /\ n = O)
          /\ (-128 <= k <= 127 \/ In k named_keys)).
Proof.
  assert (Hshape : forall c s, wait_byte inp = Returns (c, s) ->
            exists k rest, editorReadKey inp = Returns (k, rest)).
  { intros c s Hw. rewrite (editorReadKey_after_wait inp s c Hw).
    destruct (editorReadKey_after_byte c s) as [k [rest [n [H _]]]]. eauto. }
  split; [|split; [|split]].
  - rewrite <- wait_byte_blocks. unfold editorReadKey.
    destruct (wait_byte inp) as [[c s]| | |] eqn:Hw; cbn [bind].
    + destruct (Hshape c s eq_refl) as [k [rest Hk]].
      unfold editorReadKey in Hk. rewrite Hw in Hk. cbn [bind] in Hk.
      rewrite Hk. split; discriminate.
    + split; discriminate.
    + split; reflexivity.
    + split; discriminate.
  - intros st. rewrite <- wait_byte_exits. unfold editorReadKey.
    destruct (wait_byte inp) as [[c s]| | |] eqn:Hw; cbn [bind].
    + destruct (Hshape c s eq_refl) as [k [rest Hk]].
      unfold editorReadKey in Hk. rewrite Hw in Hk. cbn [bind] in Hk.
      rewrite Hk. split; discriminate.
    + split; intros [= ->]; reflexivity.
    + split; discriminate.
    + split; discriminate.
  - unfold editorReadKey.
    destruct (wait_byte inp) as [[c s]| | |] eqn:Hw; cbn [bind];
      try discriminate.
    + destruct (Hshape c s eq_refl) as [k [rest Hk]].
      unfold editorReadKey in Hk. rewrite Hw in Hk. cbn [bind] in Hk.
      rewrite Hk. discriminate.
    + destruct (wait_byte_defined inp Hw).
  - intros k rest Hkey.
    destruct (wait_byte inp) as [[c s]| | |] eqn:Hw;
      try (unfold editorReadKey in Hkey; rewrite Hw in Hkey;
           discriminate Hkey).
    destruct (wait_byte_suffix inp c s Hw) as [pre [Hinp Hpre]].
    rewrite (editorReadKey_after_wait inp s c Hw) in Hkey.
    destruct (editorReadKey_after_byte c s)
      as [k' [rest' [n [Hk' [Hn [Hrest [Hplain Hrange]]]]]]].
    rewrite Hk' in Hkey. injection Hkey as <- <-.
    exists pre, c, s, n. repeat split; auto.
    + now apply Hplain.
    + now apply Hplain.
    + destruct Hrange as [-> | Hnamed]; [left; apply int_of_char_range|].
      now right.
Qed.

(** * Cursor motion in closed form *)

Section MotionClosedForm.

Lemma editor_eta (E : editorConfig) :
  mk_editorConfig (cx E) (cy E) (rx E) (rowoff E) (coloff E) (screenRows E)
    (screenCols E) (numrows E) (row E) (filename E) (status_msg E)
    (statusmsg_time E) = E.
Proof. now destruct E. Qed.

Lemma wf_row_at (E : editorConfig) (i : Z) :
  wf_rows E -> wf_row (row_at E i).
Proof.
  intros [_ Hall]. unfold row_at.
  destruct (nth_in_or_default (Z.to_nat i) (row E) default_row) as [Hin | Hd].
  - rewrite Forall_forall in Hall. now apply Hall.
  - rewrite Hd. reflexivity.
Qed.


Lemma moveRight_closed (E : editorConfig) :
  wf_rows E -> cursor_ok E ->
  editorMoveCursor ARROW_RIGHT E = right_of E.
Proof.
  intros Hwf [Hcy Hcx].
  pose proof (size_row_at_nonneg E (cy E) Hwf) as H0.
  pose proof (size_row_at_nonneg E (cy E + 1) Hwf) as H1.
  unfold right_of, row_len, editorMoveCursor, clamp_cx, move_switch,
    current_row, row_at in *.
  change (ARROW_RIGHT =? ARROW_LEFT) with false.
  change (ARROW_RIGHT =? ARROW_RIGHT) with true. cbv iota.
  ifs; try lia; try reflexivity.
Qed.

Lemma moveUp_closed (E : editorConfig) :
  wf_rows E -> cursor_ok E ->
  editorMoveCursor ARROW_UP E
  = if cy E >? 0 then on_row (cy E - 1) E else E.
Proof.
  intros Hwf [Hcy Hcx].
  pose proof (size_row_at_nonneg E (cy E) Hwf) as H0.
  pose proof (size_row_at_nonneg E (cy E - 1) Hwf) as H1.
  unfold on_row, row_len, editorMoveCursor, clamp_cx, move_switch,
    current_row, row_at in *.
  change (ARROW_UP =? ARROW_LEFT) with false.
  change (ARROW_UP =? ARROW_RIGHT) with false.
  change (ARROW_UP =? ARROW_UP) with true. cbv iota.
  ifs; try lia; try reflexivity.
  all: try (rewrite Z.min_l by lia; reflexivity).
  all: try (rewrite Z.min_r by lia; reflexivity).
Qed.

Lemma moveDown_closed (E : editorConfig) :
  wf_rows E -> cursor_ok E ->
  editorMoveCursor ARROW_DOWN E
  = if cy E <? numrows E then on_row (cy E + 1) E else E.
Proof.
  intros Hwf [Hcy Hcx].
  pose proof (size_row_at_nonneg E (cy E) Hwf) as H0.
  pose proof (size_row_at_nonneg E (cy E + 1) Hwf) as H1.
  unfold on_row, row_len, editorMoveCursor, clamp_cx, move_switch,
    current_row, row_at in *.
  change (ARROW_DOWN =? ARROW_LEFT) with false.
  change (ARROW_DOWN =? ARROW_RIGHT) with false.
  change (ARROW_DOWN =? ARROW_UP) with false.
  change (ARROW_DOWN =? ARROW_DOWN) with true. cbv iota.
  ifs; try lia; try reflexivity.
  all: try (rewrite Z.min_l by lia; reflexivity).
  all: try (rewrite Z.min_r by lia; reflexivity).
Qed.

End MotionClosedForm.

(** X3: on a cursor within the clamp, MoveRight advances [cx] inside a row,
    goes from the end of a row to the start of the next position, and does
    nothing on the position past the last row. *)
Theorem move_right_cases (E : editorConfig) :
  wf_rows E -> cursor_ok E ->
  processKey ARROW_RIGHT E = Returns (editorMoveCursor ARROW_RIGHT E)
  /\ (cy E < numrows E -> cx E < row_len E (cy E) ->
      editorMoveCursor ARROW_RIGHT E = set_cx (cx E + 1) E)
  /\ (cy E < numrows E -> cx E = row_len E (cy E) ->
      editorMoveCursor ARROW_RIGHT E = set_cx 0 (set_cy (cy E + 1) E))
  /\ (cy E = numrows E -> editorMoveCursor ARROW_RIGHT E = E).
Proof.
  intros Hwf Hok. split; [reflexivity|].
  rewrite (moveRight_closed E Hwf Hok). unfold right_of.
  split; [|split].
  - intros Hy Hx. ifs; try lia; reflexivity.
  - intros Hy Hx. ifs; try lia; reflexivity.
  - intros Hy. ifs; try lia; reflexivity.
Qed.

Lemma move_right_cases_witness :
  editorMoveCursor ARROW_RIGHT (set_cx 3 sample_editor)
  = set_cx 0 (set_cy 1 sample_editor).
Proof.
  assert (Hwf : wf_rows (set_cx 3 sample_editor)).
  { split; [reflexivity | repeat constructor]. }
  assert (Hok : cursor_ok (set_cx 3 sample_editor)).
  { unfold cursor_ok. vm_compute. repeat split; discriminate. }
  destruct (move_right_cases (set_cx 3 sample_editor) Hwf Hok)
    as [_ [_ [Hwrap _]]].
  apply Hwrap; reflexivity.
Defined.



(** X5: on a cursor within the clamp, MoveUp and MoveDown change the row by
    one inside [0, numrows] and keep the column, except that on a shorter
    row the cursor is at the end of that row; nothing else changes. *)
Theorem vertical_moves_keep_or_clamp_the_column (E : editorConfig) :
  wf_rows E -> cursor_ok E ->
  editorMoveCursor ARROW_UP E
  = (if cy E >? 0 then on_row (cy E - 1) E else E)
  /\ editorMoveCursor ARROW_DOWN E
     = (if cy E <? numrows E then on_row (cy E + 1) E else E).
Proof.
  intros Hwf Hok. split.
  - now apply moveUp_closed.
  - now apply moveDown_closed.
Qed.

Lemma vertical_moves_keep_or_clamp_the_column_witness :
  editorMoveCursor ARROW_DOWN (set_cy 1 (set_cx 5 sample_editor))
  = set_cy 2 (set_cx 4 sample_editor).
Proof.
  assert (Hwf : wf_rows (set_cy 1 (set_cx 5 sample_editor))).
  { split; [reflexivity | repeat constructor]. }
  assert (Hok : cursor_ok (set_cy 1 (set_cx 5 sample_editor))).
  { unfold cursor_ok. vm_compute. repeat split; discriminate. }
  exact (proj2 (vertical_moves_keep_or_clamp_the_column _ Hwf Hok)).
Defined.

Section PagingClosedForm.

(** What a vertical move does to a cursor of any state. *)
Lemma moveUp_any (E : editorConfig) :
  cy (editorMoveCursor ARROW_UP E) = (if cy E =? 0 then 0 else cy E - 1)
  /\ cx (editorMoveCursor ARROW_UP E) <= cx E
  /\ same_view E (editorMoveCursor ARROW_UP E).
Proof.
  unfold editorMoveCursor, clamp_cx, move_switch, current_row, same_view.
  change (ARROW_UP =? ARROW_LEFT) with false.
  change (ARROW_UP =? ARROW_RIGHT) with false.
  change (ARROW_UP =? ARROW_UP) with true. cbv iota.
  ifs. all: repeat split; lia.
Qed.

Lemma moveDown_any (E : editorConfig) :
  cy (editorMoveCursor ARROW_DOWN E)
  = (if cy E <? numrows E then cy E + 1 else cy E)
  /\ cx (editorMoveCursor ARROW_DOWN E) <= cx E
  /\ same_view E (editorMoveCursor ARROW_DOWN E).
Proof.
  unfold editorMoveCursor, clamp_cx, move_switch, current_row, same_view.
  change (ARROW_DOWN =? ARROW_LEFT) with false.
  change (ARROW_DOWN =? ARROW_RIGHT) with false.
  change (ARROW_DOWN =? ARROW_UP) with false.
  change (ARROW_DOWN =? ARROW_DOWN) with true. cbv iota.
  ifs. all: repeat split; lia.
Qed.

Lemma times_loop_up (n : nat) :
  forall E,
    0 <= cy E ->
    cy (times_loop n ARROW_UP E) = Z.max 0 (cy E - Z.of_nat n)
    /\ cx (times_loop n ARROW_UP E) <= cx E
    /\ same_view E (times_loop n ARROW_UP E).
Proof.
  induction n as [|n IH]; intros E Hy.
  - simpl. split; [lia|]. split; [lia | apply same_view_refl].
  - cbn [times_loop].
    destruct (moveUp_any E) as [Hcy [Hcx Hs]].
    destruct (IH (editorMoveCursor ARROW_UP E)) as [Hcy' [Hcx' Hs']].
    { rewrite Hcy. destruct (cy E =? 0) eqn:Hz; lia. }
    split; [|split].
    + rewrite Hcy', Hcy. destruct (cy E =? 0) eqn:Hz; lia.
    + lia.
    + now apply (same_view_trans E (editorMoveCursor ARROW_UP E)).
Qed.

Lemma times_loop_down (n : nat) :
  forall E,
    cy E <= numrows E ->
    cy (times_loop n ARROW_DOWN E)
    = Z.min (numrows E) (cy E + Z.of_nat n)
    /\ cx (times_loop n ARROW_DOWN E) <= cx E
    /\ same_view E (times_loop n ARROW_DOWN E).
Proof.
  induction n as [|n IH]; intros E Hy.
  - simpl. split; [lia|]. split; [lia | apply same_view_refl].
  - cbn [times_loop].
    destruct (moveDown_any E) as [Hcy [Hcx Hs]].
    assert (Hn : numrows (editorMoveCursor ARROW_DOWN E) = numrows E)
      by apply Hs.
    destruct (IH (editorMoveCursor ARROW_DOWN E)) as [Hcy' [Hcx' Hs']].
    { rewrite Hcy, Hn. destruct (cy E <? numrows E) eqn:Hz; lia. }
    split; [|split].
    + rewrite Hcy', Hcy, Hn. destruct (cy E <? numrows E) eqn:Hz; lia.
    + lia.
    + now apply (same_view_trans E (editorMoveCursor ARROW_DOWN E)).
Qed.

(** Every key other than the quit key and the navigation keys. *)
Lemma processKey_other (k : Z) (E : editorConfig) :
  k <> QUIT_KEY -> ~ is_nav_key k -> processKey k E = Returns E.
Proof.
  intros Hq Hnav. unfold is_nav_key in Hnav. cbn [In] in Hnav.
  unfold processKey. fold QUIT_KEY.
  destruct (Z.eqb_spec k QUIT_KEY); [contradiction|].
  destruct (Z.eqb_spec k HOME_KEY); [exfalso; apply Hnav; subst k; auto 12|].
  destruct (Z.eqb_spec k END_KEY); [exfalso; apply Hnav; subst k; auto 12|].
  destruct (Z.eqb_spec k PAGE_UP); [exfalso; apply Hnav; subst k; auto 12|].
  destruct (Z.eqb_spec k PAGE_DOWN); [exfalso; apply Hnav; subst k; auto 12|].
  destruct (Z.eqb_spec k ARROW_DOWN); [exfalso; apply Hnav; subst k; auto 12|].
  destruct (Z.eqb_spec k ARROW_UP); [exfalso; apply Hnav; subst k; auto 12|].
  destruct (Z.eqb_spec k ARROW_LEFT); [exfalso; apply Hnav; subst k; auto 12|].
  destruct (Z.eqb_spec k ARROW_RIGHT); [exfalso; apply Hnav; subst k; auto 12|].
  reflexivity.
Qed.

End PagingClosedForm.

(** X6: where the paging keys put the cursor.  With a row count of the
    screen that is not negative and [rowoff] not negative, PageUp leaves the
    cursor [screenRows] rows above the first visible row, on row 0 at the
    least; PageDown leaves it on the last row of the page after the visible
    one, [rowoff + 2 * screenRows - 1], on the position past the last row of
    the file at the most.  Neither moves the column to the right, and
    neither touches the row store or the scroll offsets. *)
Theorem page_keys_closed_form (E : editorConfig) :
  0 <= screenRows E -> 0 <= rowoff E ->
  exists Eup Edown,
    processKey PAGE_UP E = Returns Eup
    /\ cy Eup = Z.max 0 (rowoff E - screenRows E)
    /\ cx Eup <= cx E
    /\ same_view E Eup
    /\ processKey PAGE_DOWN E = Returns Edown
    /\ cy Edown = Z.min (numrows E) (rowoff E + 2 * screenRows E - 1)
    /\ cx Edown <= cx E
    /\ same_view E Edown.
Proof.
  intros Hsr Hro.
  exists (times_loop (Z.to_nat (screenRows E)) ARROW_UP
            (set_cy (rowoff E) E)).
  exists (times_loop (Z.to_nat (screenRows E)) ARROW_DOWN
            (set_cy (Z.min (rowoff E + screenRows E - 1) (numrows E)) E)).
  destruct (times_loop_up (Z.to_nat (screenRows E)) (set_cy (rowoff E) E))
    as [Hcy [Hcx Hs]]; [exact Hro|].
  destruct (times_loop_down (Z.to_nat (screenRows E))
              (set_cy (Z.min (rowoff E + screenRows E - 1) (numrows E)) E))
    as [Hcy' [Hcx' Hs']]; [proj_simpl; lia|].
  proj_simpl.
  split; [now apply processKey_page_up|].
  split; [rewrite Hcy; lia|]. split; [exact Hcx|].
  split; [exact Hs|].
  split; [now apply processKey_page_down|].
  split; [rewrite Hcy'; lia|]. split; [exact Hcx'|]. exact Hs'.
Qed.

Lemma page_keys_closed_form_witness :
  exists Eup Edown,
    processKey PAGE_UP (set_rowoff 2 sample_editor) = Returns Eup
    /\ cy Eup = 0
    /\ cx Eup <= 0
    /\ same_view (set_rowoff 2 sample_editor) Eup
    /\ processKey PAGE_DOWN (set_rowoff 2 sample_editor) = Returns Edown
    /\ cy Edown = 3
    /\ cx Edown <= 0
    /\ same_view (set_rowoff 2 sample_editor) Edown.
Proof.
  apply (page_keys_closed_form (set_rowoff 2 sample_editor)).
  - vm_compute. discriminate.
  - vm_compute. discriminate.
Defined.

(** X7: the quit key, Control-Q (17), ends the program with status 0, and
    every key that is neither the quit key nor a navigation key (a printable
    byte, the Delete key, the bare Escape key) leaves the whole state as it
    was. *)
Theorem other_keys_change_nothing (k : Z) (E : editorConfig) :
  k <> QUIT_KEY -> ~ is_nav_key k ->
  processKey k E = Returns E
  /\ processKey QUIT_KEY E = Exits 0
  /\ QUIT_KEY = 17.
Proof.
  intros Hq Hnav. split; [now apply processKey_other|].
  split; reflexivity.
Qed.

Lemma other_keys_change_nothing_witness :
  processKey (int_of_char "x"%char) sample_editor = Returns sample_editor
  /\ processKey QUIT_KEY sample_editor = Exits 0
  /\ QUIT_KEY = 17.
Proof.
  apply (other_keys_change_nothing (int_of_char "x"%char) sample_editor).
  - vm_compute. discriminate.
  - unfold is_nav_key. vm_compute.
    intros H. repeat (destruct H as [H | H]; [discriminate H|]). exact H.
Defined.

(** * Scrolling settles *)

Section ScrollSettles.

Lemma scroll_rows_fix (E : editorConfig) :
  rowoff E <= cy E < rowoff E + screenRows E -> scroll_rows E = E.
Proof. intros H. unfold scroll_rows. ifs; try lia; reflexivity. Qed.

Lemma scroll_cols_fix (E : editorConfig) :
  coloff E <= rx E < coloff E + screenCols E -> scroll_cols E = E.
Proof. intros H. unfold scroll_cols. ifs; try lia; reflexivity. Qed.

Lemma scroll_rx_fix (E : editorConfig) :
  rx E = (if cy E <? numrows E
          then editorRowCxToRx (row_at E (cy E)) (cx E)
          else 0) ->
  scroll_rx E = E.
Proof.
  intros H. rewrite scroll_rx_spec, <- H. unfold set_rx. apply editor_eta.
Qed.

Lemma editorScroll_fix (E : editorConfig) :
  rx E = (if cy E <? numrows E
          then editorRowCxToRx (row_at E (cy E)) (cx E)
          else 0) ->
  rowoff E <= cy E < rowoff E + screenRows E ->
  coloff E <= rx E < coloff E + screenCols E ->
  editorScroll E = E.
Proof.
  intros Hrx Hrows Hcols. unfold editorScroll.
  rewrite (scroll_rx_fix E Hrx), (scroll_rows_fix E Hrows).
  now apply scroll_cols_fix.
Qed.

Lemma editorScroll_rowoff_stays (E : editorConfig) :
  rowoff E <= cy E < rowoff E + screenRows E ->
  rowoff (editorScroll E) = rowoff E.
Proof.
  intros H. unfold editorScroll.
  destruct (scroll_cols_spec (scroll_rows (scroll_rx E))) as [co [-> _]].
  rewrite scroll_rows_fix; rewrite scroll_rx_spec; proj_simpl;
    [reflexivity | exact H].
Qed.

Lemma editorScroll_coloff_stays (E : editorConfig) :
  coloff E <= rx (editorScroll E) < coloff E + screenCols E ->
  coloff (editorScroll E) = coloff E.
Proof.
  rewrite editorScroll_rx. intros H. unfold editorScroll.
  destruct (scroll_rows_spec (scroll_rx E)) as [ro [-> _]].
  rewrite scroll_cols_fix; rewrite scroll_rx_spec; proj_simpl;
    [reflexivity | exact H].
Qed.

Lemma editorScroll_coloff_nonneg (E : editorConfig) :
  0 <= coloff E -> 0 <= coloff (editorScroll E).
Proof.
  intros H. unfold editorScroll.
  destruct (scroll_rows_spec (scroll_rx E)) as [ro [-> _]].
  rewrite scroll_rx_spec.
  set (v := if cy E <? numrows E
            then editorRowCxToRx (row_at E (cy E)) (cx E) else 0).
  assert (Hv : 0 <= v).
  { subst v. destruct (cy E <? numrows E); [apply CxToRx_nonneg | lia]. }
  unfold scroll_cols. ifs; lia.
Qed.

End ScrollSettles.

(** X8: with at least one text row and one column, [editorScroll] settles:
    run again on its own result it changes nothing; it leaves [rowoff]
    alone when the cursor row is already among the visible rows and
    [coloff] alone when the rendered column is among the visible columns;
    and offsets that are not negative stay so. *)
Theorem scroll_settles (E : editorConfig) :
  1 <= screenRows E -> 1 <= screenCols E ->
  editorScroll (editorScroll E) = editorScroll E
  /\ (rowoff E <= cy E < rowoff E + screenRows E ->
      rowoff (editorScroll E) = rowoff E)
  /\ (coloff E <= rx (editorScroll E) < coloff E + screenCols E ->
      coloff (editorScroll E) = coloff E)
  /\ (0 <= cy E -> 0 <= rowoff E -> 0 <= rowoff (editorScroll E))
  /\ (0 <= coloff E -> 0 <= coloff (editorScroll E)).
Proof.
  intros Hr Hc.
  destruct (editorScroll_frame E) as [Hx [Hy [Hn [Hrow [Hsr Hsc]]]]].
  split; [|split; [|split; [|split]]].
  - apply editorScroll_fix.
    + rewrite Hx, Hy, Hn. unfold row_at. rewrite Hrow.
      apply editorScroll_rx.
    + rewrite Hy, Hsr. now apply editorScroll_rows.
    + rewrite Hsc. now apply editorScroll_cols.
  - apply editorScroll_rowoff_stays.
  - apply editorScroll_coloff_stays.
  - intros H0 H1. pose proof (editorScroll_rows E Hr) as H.
    unfold editorScroll in *.
    destruct (scroll_cols_spec (scroll_rows (scroll_rx E))) as [co [Hco _]].
    rewrite Hco in *. proj_simpl. clear Hco.
    unfold scroll_rows in *. rewrite scroll_rx_spec in *.
    revert H. ifs; intros; lia.
  - apply editorScroll_coloff_nonneg.
Qed.

Lemma scroll_settles_witness :
  let E := set_cx 3 (set_rowoff 2 (set_coloff 40 sample_editor)) in
  editorScroll (editorScroll E) = editorScroll E
  /\ (rowoff E <= cy E < rowoff E + screenRows E ->
      rowoff (editorScroll E) = rowoff E)
  /\ (coloff E <= rx (editorScroll E) < coloff E + screenCols E ->
      coloff (editorScroll E) = coloff E)
  /\ (0 <= cy E -> 0 <= rowoff E -> 0 <= rowoff (editorScroll E))
  /\ (0 <= coloff E -> 0 <= coloff (editorScroll E)).
Proof.
  apply (scroll_settles
           (set_cx 3 (set_rowoff 2 (set_coloff 40 sample_editor)))).
  - vm_compute. discriminate.
  - vm_compute. discriminate.
Defined.

(** * Rendered columns and the rendered form *)

Section RenderedColumns.

Lemma expand_from_app (a b : list ascii) :
  forall col,
    expand_from col (a ++ b)
    = expand_from col a
      ++ expand_from (col + length (expand_from col a)) b.
Proof.
  induction a as [|c a IH]; intros col.
  - simpl. now rewrite Nat.add_0_r.
  - change ((c :: a) ++ b) with (c :: (a ++ b)).
    rewrite (expand_from_cons col c (a ++ b)), (expand_from_cons col c a).
    rewrite IH, length_app, <- app_assoc, Nat.add_assoc. reflexivity.
Qed.

Lemma rx_step_expand (c : ascii) (col : nat) :
  rx_step c (Z.of_nat col)
  = Z.of_nat (col + length (expand_from col [c])).
Proof.
  pose proof (render_step_expand c (repeat SPACE col)) as H.
  rewrite repeat_length in H.
  apply (f_equal snd) in H. cbn [snd] in H.
  rewrite render_step_snd in H by (cbn [snd]; lia). cbn [snd] in H.
  rewrite H, length_app, repeat_length. reflexivity.
Qed.

Lemma CxToRx_loop_expand (r : erow) (a : list ascii) :
  forall pre post col,
    chars r = pre ++ a ++ post ->
    CxToRx_loop r (length a) (Z.of_nat (length pre)) (Z.of_nat col)
    = Z.of_nat (col + length (expand_from col a)).
Proof.
  induction a as [|c a IH]; intros pre post col Hc.
  - simpl. now rewrite Nat.add_0_r.
  - cbn [length CxToRx_loop].
    rewrite (char_at_middle r pre (a ++ post) c Hc).
    rewrite rx_step_expand.
    replace (Z.of_nat (length pre) + 1)
      with (Z.of_nat (length (pre ++ [c])))
      by (rewrite length_app; simpl; lia).
    rewrite (IH (pre ++ [c]) post)
      by (rewrite <- app_assoc; exact Hc).
    rewrite (expand_from_cons col c a), length_app, Nat.add_assoc.
    reflexivity.
Qed.

(** The rendered column of a content column is the length of the
    expansion of the content before it. *)
Lemma CxToRx_row_of (content : list ascii) (i : nat) :
  (i <= length content)%nat ->
  editorRowCxToRx (row_of content) (Z.of_nat i)
  = Z.of_nat (length (expand_from 0 (firstn i content))).
Proof.
  intros Hi. unfold editorRowCxToRx. rewrite Nat2Z.id.
  pose proof (CxToRx_loop_expand (row_of content) (firstn i content)
                [] (skipn i content) O) as H.
  rewrite firstn_length_le in H by exact Hi.
  apply H. simpl. now rewrite firstn_skipn.
Qed.

Lemma expand_from_no_tab_in (l : list ascii) :
  forall col, ~ In TAB (expand_from col l).
Proof.
  induction l as [|c l IH]; intros col; simpl.
  - tauto.
  - destruct (Ascii.eqb_spec c TAB) as [->|Hc].
    + intros Hin. apply in_app_or in Hin. destruct Hin as [Hin|Hin].
      * apply repeat_spec in Hin. discriminate Hin.
      * exact (IH _ Hin).
    + intros [Heq|Hin]; [now apply Hc | exact (IH _ Hin)].
Qed.

Lemma expand_from_length (l : list ascii) :
  forall col,
    (length l <= length (expand_from col l)
     <= Z.to_nat KILO_TAB_STOP * length l)%nat.
Proof.
  change (Z.to_nat KILO_TAB_STOP) with 8%nat.
  induction l as [|c l IH]; intros col; cbn [expand_from length].
  - lia.
  - destruct (Ascii.eqb c TAB).
    + rewrite length_app, repeat_length.
      change (Z.to_nat KILO_TAB_STOP) with 8%nat.
      pose proof (Nat.mod_upper_bound col 8 ltac:(lia)).
      specialize (IH (col + (8 - col mod 8))%nat). lia.
    + cbn [length]. specialize (IH (S col)). lia.
Qed.

Lemma expand_from_head (c : ascii) (tl : list ascii) (col : nat) :
  nth 0 (expand_from col (c :: tl)) NUL = shown c.
Proof.
  unfold shown. cbn [expand_from]. destruct (Ascii.eqb c TAB).
  - change (Z.to_nat KILO_TAB_STOP) with 8%nat.
    pose proof (Nat.mod_upper_bound col 8 ltac:(lia)).
    destruct (8 - col mod 8)%nat as [|w] eqn:Hw; [lia | reflexivity].
  - reflexivity.
Qed.

Lemma rsize_row_of (content : list ascii) :
  rsize (row_of content) = Z.of_nat (length (render (row_of content))).
Proof.
  unfold row_of, editorUpdateRow. cbn [rsize render].
  apply render_loop_length; cbn [fst snd]; simpl; lia.
Qed.

End RenderedColumns.

(** X9: a content without a tab is rendered as it is: the rendered form is
    the content, [rsize] is the content length, and every content column is
    its own rendered column. *)
Theorem no_tab_rows_render_as_they_are (content : list ascii) (i : nat) :
  ~ In TAB content -> (i <= length content)%nat ->
  render (row_of content) = content
  /\ rsize (row_of content) = Z.of_nat (length content)
  /\ editorRowCxToRx (row_of content) (Z.of_nat i) = Z.of_nat i.
Proof.
  intros Hno Hi.
  destruct (render_row_of content) as [Hr [Hc Hs]].
  assert (Hrender : render (row_of content) = content).
  { rewrite Hr. now apply expand_from_no_tab. }
  split; [exact Hrender|]. split.
  - rewrite rsize_row_of. now rewrite Hrender.
  - rewrite CxToRx_row_of by exact Hi.
    rewrite expand_from_no_tab.
    + now rewrite firstn_length_le.
    + intros Hin. apply Hno. rewrite <- (firstn_skipn i content).
      apply in_or_app. now left.
Qed.

Lemma no_tab_rows_render_as_they_are_witness :
  render (row_of (str "short"%string)) = str "short"%string
  /\ rsize (row_of (str "short"%string)) = 5
  /\ editorRowCxToRx (row_of (str "short"%string)) 4 = 4.
Proof.
  apply (no_tab_rows_render_as_they_are (str "short"%string) 4).
  - vm_compute. intros H.
    repeat (destruct H as [H | H]; [discriminate H|]). exact H.
  - vm_compute. repeat constructor.
Defined.

(** X10: the rendered form that [editorUpdateRow] builds is the tab
    expansion of the content: every byte but a tab is copied, a tab becomes
    the spaces up to the next multiple of the tab stop.  It holds no tab,
    and its length [rsize] is at least the content length and at most
    eight times it. *)
Theorem render_is_the_tab_expansion (content : list ascii) :
  render (row_of content) = expand_from 0 content
  /\ ~ In TAB (render (row_of content))
  /\ Z.of_nat (length content) <= rsize (row_of content)
     <= KILO_TAB_STOP * Z.of_nat (length content).
Proof.
  destruct (render_row_of content) as [Hr _].
  split; [exact Hr|]. split.
  - rewrite Hr. apply expand_from_no_tab_in.
  - rewrite rsize_row_of, Hr.
    pose proof (expand_from_length content O) as H.
    change (Z.to_nat KILO_TAB_STOP) with 8%nat in H.
    unfold KILO_TAB_STOP. lia.
Qed.

(** X11: the cursor is drawn on the byte it points to.  For a content
    column [i] inside the row, the rendered column that [editorRowCxToRx]
    gives is inside the rendered form, and the byte of the rendered form
    there is the content byte at [i], or a space when that byte is a
    tab. *)
Theorem rendered_column_shows_the_content_byte
  (content : list ascii) (i : nat) :
  (i < length content)%nat ->
  0 <= editorRowCxToRx (row_of content) (Z.of_nat i)
    < rsize (row_of content)
  /\ nth (Z.to_nat (editorRowCxToRx (row_of content) (Z.of_nat i)))
       (render (row_of content)) NUL
     = shown (nth i content NUL).
Proof.
  intros Hi.
  destruct (render_row_of content) as [Hr _].
  rewrite CxToRx_row_of by lia. rewrite Nat2Z.id.
  rewrite rsize_row_of, Hr.
  remember (firstn i content) as pre eqn:Hpre.
  assert (Hlen : length pre = i) by (subst pre; apply firstn_length_le; lia).
  assert (Hsplit : content = pre ++ skipn i content)
    by (subst pre; symmetry; apply firstn_skipn).
  destruct (skipn i content) as [|c tl] eqn:Hskip.
  { apply (f_equal (@length ascii)) in Hskip.
    rewrite length_skipn in Hskip. simpl in Hskip. lia. }
  clear Hpre Hskip Hi. subst content.
  rewrite expand_from_app. cbn [Nat.add].
  rewrite (app_nth2 pre) by lia.
  replace (i - length pre)%nat with O by lia. cbn [nth].
  split.
  - rewrite length_app.
    pose proof (expand_from_length (c :: tl)
                  (length (expand_from 0 pre))) as Hl.
    cbn [length] in Hl. lia.
  - rewrite app_nth2 by lia. rewrite Nat.sub_diag.
    apply expand_from_head.
Qed.

Lemma rendered_column_shows_the_content_byte_witness :
  0 <= editorRowCxToRx sample_row 2 < rsize sample_row
  /\ nth (Z.to_nat (editorRowCxToRx sample_row 2)) (render sample_row) NUL
     = "b"%char.
Proof.
  apply (rendered_column_shows_the_content_byte
           (str "a"%string ++ [TAB] ++ str "b"%string) 2).
  vm_compute. repeat constructor.
Defined.


(** * Loading, from any state *)

Section LoadAnyState.

Lemma chars_row_of (content : list ascii) : chars (row_of content) = content.
Proof. reflexivity. Qed.

Lemma synced_row_of (content : list ascii) : synced (row_of content).
Proof. unfold synced. now rewrite chars_row_of. Qed.

Lemma wf_row_row_of (content : list ascii) : wf_row (row_of content).
Proof.
  unfold wf_row. destruct (render_row_of content) as [_ [-> ->]].
  reflexivity.
Qed.

Lemma synced_wf_row (r : erow) : synced r -> wf_row r.
Proof. intros ->. apply wf_row_row_of. Qed.

Lemma editorOpen_closed (name : String.string) (bytes : list ascii)
  (E : editorConfig) :
  editorOpen name (Some bytes) E
  = Returns (with_lines (lines_of bytes) (set_filename (Some name) E)).
Proof.
  unfold editorOpen. now rewrite open_loop_lines by lia.
Qed.

Lemma wf_rows_with_lines (ls : list (list ascii)) (E : editorConfig) :
  wf_rows E -> wf_rows (with_lines ls E).
Proof.
  intros [Hn Hall]. unfold with_lines, wf_rows. proj_simpl. split.
  - rewrite length_app, length_map. lia.
  - apply Forall_app. split; [exact Hall|].
    apply Forall_map. apply Forall_forall. intros l _.
    apply wf_row_row_of.
Qed.

(** A stripped line of a file holds no line feed and ends with neither a
    carriage return nor a line feed. *)
Lemma rstrip_line_clean (l : list ascii) :
  (forall i, (S i < length l)%nat -> nth i l NUL <> LF) ->
  ~ In LF (rstrip_crlf l)
  /\ (forall init c, rstrip_crlf l = init ++ [c] -> c <> CR /\ c <> LF).
Proof.
  intros Hl.
  destruct (rstrip_crlf_spec l) as [suffix [Heq [Hsuf Hlast]]].
  assert (Hend : forall init c, rstrip_crlf l = init ++ [c] ->
                                c <> CR /\ c <> LF).
  { intros init c Hp. specialize (Hlast init c Hp).
    split; intros ->; discriminate Hlast. }
  split; [|exact Hend].
  intros Hin.
  destruct (In_nth _ _ NUL Hin) as [i [Hi Hnth]].
  assert (Hnl : nth i l NUL = LF).
  { rewrite Heq. rewrite app_nth1 by exact Hi. exact Hnth. }
  assert (Hlen : length l = (length (rstrip_crlf l) + length suffix)%nat).
  { rewrite Heq at 1. apply length_app. }
  destruct (Nat.lt_ge_cases (S i) (length l)) as [Hlt|Hge].
  - exact (Hl i Hlt Hnl).
  - assert (Hne : rstrip_crlf l <> []).
    { intros Hnil. rewrite Hnil in Hi. simpl in Hi. lia. }
    destruct (exists_last Hne) as [init [c Hp]].
    rewrite Hp in Hnth, Hi. rewrite length_app in Hi. simpl in Hi.
    rewrite Hp, length_app in Hlen. simpl in Hlen.
    replace i with (length init) in Hnth by lia.
    rewrite nth_middle in Hnth. subst c.
    destruct (Hend init LF Hp) as [_ Hneq]. now apply Hneq.
Qed.

Lemma loaded_lines_clean (bytes : list ascii) :
  Forall (fun l =>
            ~ In LF (rstrip_crlf l)
            /\ (forall init c, rstrip_crlf l = init ++ [c] ->
                               c <> CR /\ c <> LF))
    (lines_of bytes).
Proof.
  pose proof (lines_of_shape bytes) as Hs.
  rewrite Forall_forall in *. intros l Hin.
  destruct (Hs l Hin) as [_ Hl]. now apply rstrip_line_clean.
Qed.

End LoadAnyState.

(** X13: [editorOpen] on a file that can be opened returns from any
    state: the rows of the file are appended after the rows already there,
    [numrows] grows by the number of lines, the file name is recorded, the
    cursor, the scroll offsets and the screen size are kept, a well formed
    row store stays well formed and each new row is in step with its
    content.  When the file cannot be opened the program exits with
    status 1. *)
Theorem load_appends_to_the_row_store
  (name : String.string) (bytes : list ascii) (E : editorConfig) :
  exists E',
    editorOpen name (Some bytes) E = Returns E'
    /\ row E' = row E ++ map (fun l => row_of (rstrip_crlf l)) (lines_of bytes)
    /\ numrows E' = numrows E + Z.of_nat (length (lines_of bytes))
    /\ filename E' = Some name
    /\ (cx E', cy E', rx E', rowoff E', coloff E')
       = (cx E, cy E, rx E, rowoff E, coloff E)
    /\ (screenRows E', screenCols E') = (screenRows E, screenCols E)
    /\ (wf_rows E -> wf_rows E')
    /\ Forall synced (map (fun l => row_of (rstrip_crlf l)) (lines_of bytes))
    /\ editorOpen name None E = Exits 1.
Proof.
  eexists. split; [apply editorOpen_closed|].
  unfold with_lines. proj_simpl.
  repeat (split; [reflexivity|]).
  split.
  - intros Hwf.
    apply (wf_rows_with_lines (lines_of bytes) (set_filename (Some name) E)).
    exact Hwf.
  - split; [|reflexivity].
    apply Forall_map. apply Forall_forall. intros l _. apply synced_row_of.
Qed.

(** X14: no row that [editorOpen] stores holds a line feed, and none ends
    with a carriage return or a line feed. *)
Theorem loaded_rows_hold_no_line_end
  (name : String.string) (bytes : list ascii) (ws_rows ws_cols : Z) :
  exists E0 E,
    initEditor (Some (ws_rows, ws_cols)) = Returns E0
    /\ editorOpen name (Some bytes) E0 = Returns E
    /\ Forall (fun r =>
                 ~ In LF (chars r)
                 /\ (forall init c, chars r = init ++ [c] ->
                                    c <> CR /\ c <> LF))
         (row E).
Proof.
  eexists. eexists. split; [reflexivity|].
  split; [apply editorOpen_closed|].
  unfold with_lines. proj_simpl. cbn [app].
  apply Forall_map.
  pose proof (loaded_lines_clean bytes) as H.
  rewrite Forall_forall in *. intros l Hin.
  rewrite chars_row_of. now apply H.
Qed.

(** * The session *)

Section Session.

Lemma editorMoveCursor_screenCols (key : Z) (E : editorConfig) :
  screenCols (editorMoveCursor key E) = screenCols E.
Proof.
  unfold editorMoveCursor, clamp_cx, move_switch, current_row.
  ifs. all: reflexivity.
Qed.

Lemma times_loop_screenCols (n : nat) (key : Z) :
  forall E, screenCols (times_loop n key E) = screenCols E.
Proof.
  induction n as [|n IH]; intros E; simpl; [reflexivity|].
  rewrite IH. apply editorMoveCursor_screenCols.
Qed.

Lemma processKey_screenCols (k : Z) (E E' : editorConfig) :
  processKey k E = Returns E' -> screenCols E' = screenCols E.
Proof.
  unfold processKey. ifs; intros H; try discriminate H;
    injection H as <-; proj_simpl;
    rewrite ?times_loop_screenCols, ?editorMoveCursor_screenCols;
    reflexivity.
Qed.

Lemma is_nav_key_dec (k : Z) : {is_nav_key k} + {~ is_nav_key k}.
Proof. unfold is_nav_key. apply in_dec. apply Z.eq_dec. Qed.

(** One key on a state that keeps the invariants. *)
Lemma processKey_step (k : Z) (E : editorConfig) :
  view_ok E -> cursor_ok E ->
  processKey k E = Exits 0
  \/ exists E', processKey k E = Returns E'
                /\ cursor_ok E' /\ view_ok E'.
Proof.
  intros Hv Hok.
  destruct (Z.eq_dec k QUIT_KEY) as [->|Hq]; [left; reflexivity|].
  right. destruct (is_nav_key_dec k) as [Hnav|Hnav].
  - destruct (processKey_nav_ok k E Hv Hok Hnav) as [E' [Hp [Hok' Hs]]].
    exists E'. split; [exact Hp|]. split; [exact Hok'|].
    now apply (view_ok_same_view E).
  - exists E. split; [now apply processKey_other|]. now split.
Qed.

Lemma editorReadKey_shape (inp : tty) :
  editorReadKey inp = Blocks
  \/ editorReadKey inp = Exits 1
  \/ exists k rest, editorReadKey inp = Returns (k, rest).
Proof.
  destruct (wait_byte inp) as [[c s]| st | |] eqn:Hw.
  - right. right. rewrite (editorReadKey_after_wait inp s c Hw).
    destruct (editorReadKey_after_byte c s) as [k [rest [n [H _]]]]. eauto.
  - right. left. destruct (proj1 (wait_byte_exits inp st) Hw) as [-> _].
    unfold editorReadKey. now rewrite Hw.
  - left. unfold editorReadKey. now rewrite Hw.
  - destruct (wait_byte_defined inp Hw).
Qed.

Lemma view_ok_set_status (msg : String.string) (t : Z) (E : editorConfig) :
  view_ok E -> view_ok (set_status msg t E).
Proof. intros H. exact H. Qed.

Lemma startup_ok (rows cols : Z)
  (arg : option (String.string * option (list ascii))) (now : Z)
  (E0 : editorConfig) :
  3 <= rows ->
  startup (Some (rows, cols)) arg now = Returns E0 ->
  view_ok E0 /\ cursor_ok E0 /\ screenCols E0 = cols
  /\ screenRows E0 = rows - 2.
Proof.
  intros Hrows. unfold startup. cbn [initEditor bind].
  set (Einit := mk_editorConfig 0 0 0 0 0 (rows - 2) cols 0 [] None
                  String.EmptyString 0).
  assert (Hwf0 : wf_rows Einit) by (split; [reflexivity | constructor]).
  destruct arg as [[name [bytes|]]|]; cbn [bind].
  - rewrite editorOpen_closed. cbn [bind]. intros [= <-].
    pose proof (wf_rows_with_lines (lines_of bytes)
                  (set_filename (Some name) Einit) Hwf0) as Hwf.
    unfold editorSetStatusMessage, set_status, with_lines in *.
    split; [|split; [|split]].
    + split; [exact Hwf|]. proj_simpl. subst Einit. cbn. lia.
    + pose proof (row_len_nonneg _ 0 Hwf) as H0.
      unfold cursor_ok, row_len, row_at in *. proj_simpl.
      subst Einit. cbn in *. lia.
    + reflexivity.
    + reflexivity.
  - unfold editorOpen. cbn [bind]. discriminate.
  - intros [= <-]. unfold editorSetStatusMessage, set_status.
    split; [|split; [|split]].
    + split; [exact Hwf0|]. subst Einit. cbn. lia.
    + unfold cursor_ok, row_len. subst Einit. cbn. lia.
    + reflexivity.
    + reflexivity.
Qed.

Lemma session_ok (n : nat) :
  forall inp E,
    view_ok E -> cursor_ok E -> 1 <= screenCols E ->
    session n inp E = Exits 0
    \/ session n inp E = Exits 1
    \/ session n inp E = Blocks
    \/ exists E' rest,
         session n inp E = Returns (E', rest)
         /\ cursor_ok E' /\ view_ok E'
         /\ screenCols E' = screenCols E
         /\ screenRows E' = screenRows E
         /\ cursor_visible (editorRefreshScreen E').
Proof.
  induction n as [|n IH]; intros inp E Hv Hok Hc.
  - right. right. right. exists E, inp.
    split; [reflexivity|]. split; [exact Hok|]. split; [exact Hv|].
    split; [reflexivity|]. split; [reflexivity|].
    unfold cursor_visible, editorRefreshScreen.
    destruct (editorScroll_frame E) as [_ [Hy [_ [_ [Hsr Hsc]]]]].
    rewrite Hy, Hsr, Hsc. destruct Hv as [_ [Hr _]]. split.
    + now apply editorScroll_rows.
    + now apply editorScroll_cols.
  - cbn [session]. unfold editorProcessKeypress, editorRefreshScreen.
    pose proof (cursor_ok_scroll E Hok) as Hok0.
    pose proof (view_ok_scroll E Hok Hv) as Hv0.
    destruct (editorScroll_frame E) as [_ [_ [_ [_ [Hsr0 Hsc0]]]]].
    destruct (editorReadKey_shape inp) as [Hb | [He | [k [rest Hk]]]].
    + rewrite Hb. auto.
    + rewrite He. auto.
    + rewrite Hk. cbn [bind fst snd].
      destruct (processKey_step k (editorScroll E) Hv0 Hok0)
        as [Hq | [E1 [Hp [Hok1 Hv1]]]].
      * rewrite Hq. auto.
      * rewrite Hp. cbn [bind fst snd].
        pose proof (processKey_screenCols k _ _ Hp) as Hsc1.
        assert (Hsr1 : screenRows E1 = screenRows (editorScroll E)).
        { destruct (Z.eq_dec k QUIT_KEY) as [->|Hq];
            [discriminate Hp|].
          destruct (is_nav_key_dec k) as [Hnav|Hnav].
          - destruct (processKey_nav_ok k _ Hv0 Hok0 Hnav)
              as [E2 [Hp2 [_ Hs]]].
            rewrite Hp in Hp2. injection Hp2 as <-. apply Hs.
          - rewrite (processKey_other k _ Hq Hnav) in Hp.
            now injection Hp as <-. }
        destruct (IH rest E1 Hv1 Hok1) as [H | [H | [H | H]]];
          [lia | auto | auto | auto |].
        destruct H as [E' [rest' [Hs [Hok' [Hv' [Hsc' [Hsr' Hvis]]]]]]].
        right. right. right. exists E', rest'.
        split; [exact Hs|]. split; [exact Hok'|]. split; [exact Hv'|].
        split; [lia|]. split; [lia | exact Hvis].
Qed.

End Session.

(** X15: the session keeps its invariants.  On a terminal of at least
    three lines and one column, once [main] has reached its loop, any number
    of turns of the loop on any terminal input ends in one of four ways: the
    quit key ends the program with status 0, a read error ends it with
    status 1, the input dries up and the program waits, or the turns are
    done, the cursor is within the clamp, the row store is well formed,
    [rowoff] is a position of the row store, and the next refresh shows the
    cursor inside the window.  No run reaches the paging loop with a
    negative count. *)
Theorem session_keeps_the_invariants
  (rows cols : Z) (arg : option (String.string * option (list ascii)))
  (now : Z) (E0 : editorConfig) (n : nat) (inp : tty) :
  3 <= rows -> 1 <= cols ->
  startup (Some (rows, cols)) arg now = Returns E0 ->
  session n inp E0 = Exits 0
  \/ session n inp E0 = Exits 1
  \/ session n inp E0 = Blocks
  \/ exists E' rest,
       session n inp E0 = Returns (E', rest)
       /\ cursor_ok E' /\ view_ok E'
       /\ screenCols E' = cols /\ screenRows E' = rows - 2
       /\ cursor_visible (editorRefreshScreen E').
Proof.
  intros Hrows Hcols Hstart.
  destruct (startup_ok rows cols arg now E0 Hrows Hstart)
    as [Hv [Hok [Hsc Hsr]]].
  destruct (session_ok n inp E0 Hv Hok) as [H | [H | [H | H]]];
    [lia | auto | auto | auto |].
  destruct H as [E' [rest [Hs [Hok' [Hv' [Hsc' [Hsr' Hvis]]]]]]].
  right. right. right. exists E', rest.
  split; [exact Hs|]. split; [exact Hok'|]. split; [exact Hv'|].
  split; [congruence|]. split; [congruence | exact Hvis].
Qed.

Lemma session_keeps_the_invariants_witness :
  let E0 :=
    editorSetStatusMessage "HELP: Ctrl-Q = quit"%string 0 sample_editor in
  let inp := [Got "x"%char; Timeout; Got ESC; Got "["%char; Got "B"%char] in
  session 2 inp E0 = Exits 0
  \/ session 2 inp E0 = Exits 1
  \/ session 2 inp E0 = Blocks
  \/ exists E' rest,
       session 2 inp E0 = Returns (E', rest)
       /\ cursor_ok E' /\ view_ok E'
       /\ screenCols E' = 80 /\ screenRows E' = 24 - 2
       /\ cursor_visible (editorRefreshScreen E').
Proof.
  apply (session_keeps_the_invariants 24 80
           (Some ("sample.txt"%string, Some sample_file)) 0).
  - lia.
  - lia.
  - reflexivity.
Defined.

(** * The frame *)

Section Printf.

Lemma digits_length (fuel : nat) :
  forall n, (1 <= fuel)%nat -> (1 <= length (digits fuel n) <= fuel)%nat.
Proof.
  induction fuel as [|fuel IH]; intros n Hf; [lia|].
  cbn [digits]. rewrite length_app. cbn [length].
  destruct (n <? 10).
  - simpl. lia.
  - destruct fuel as [|fuel'].
    + simpl. lia.
    + specialize (IH (n / 10) ltac:(lia)). lia.
Qed.

Lemma fmt_d_length (z : Z) : (1 <= length (fmt_d z) <= 11)%nat.
Proof.
  unfold fmt_d. destruct (z <? 0); cbn [length].
  - pose proof (digits_length 10 (- z) ltac:(lia)). lia.
  - pose proof (digits_length 10 z ltac:(lia)). lia.
Qed.

Lemma digits_value_app (a : list ascii) (d : ascii) :
  digits_value (a ++ [d])
  = 10 * digits_value a + (Z.of_nat (nat_of_ascii d) - 48).
Proof. unfold digits_value. now rewrite fold_left_app. Qed.

Lemma digit_char_value (d : Z) :
  0 <= d < 10 -> Z.of_nat (nat_of_ascii (digit_char d)) - 48 = d.
Proof.
  intros Hd. unfold digit_char.
  rewrite nat_ascii_embedding by lia. lia.
Qed.

(** The digits that [%d] prints spell the number. *)
Lemma digits_value_digits (fuel : nat) :
  forall n, 0 <= n < 10 ^ Z.of_nat fuel ->
            digits_value (digits fuel n) = n.
Proof.
  induction fuel as [|fuel IH]; intros n Hn.
  - change (10 ^ Z.of_nat 0) with 1 in Hn. cbn. lia.
  - cbn [digits]. rewrite digits_value_app.
    rewrite digit_char_value by (apply Z.mod_pos_bound; lia).
    destruct (Z.ltb_spec n 10) as [Hlt|Hge].
    + cbn. rewrite Z.mod_small by lia. reflexivity.
    + rewrite IH.
      * pose proof (Z.div_mod n 10 ltac:(lia)). lia.
      * rewrite Nat2Z.inj_succ, Z.pow_succ_r in Hn by lia.
        split; [apply Z.div_pos; lia|].
        apply Z.div_lt_upper_bound; lia.
Qed.

End Printf.

Section FrameProofs.

Variable realloc_fails : abuf -> Z -> bool.
Hypothesis no_fail : forall ab n, realloc_fails ab n = false.

Lemma abAppend_push (ab : abuf) (s : list ascii) (len : Z) :
  0 <= len -> (Z.to_nat len <= length s)%nat ->
  abAppend realloc_fails ab s len = push ab (firstn (Z.to_nat len) s).
Proof.
  intros H0 Hlen. unfold abAppend, push. rewrite no_fail.
  rewrite firstn_length_le by exact Hlen. f_equal. lia.
Qed.

Lemma abAppend_all (ab : abuf) (s : list ascii) :
  abAppend realloc_fails ab s (Z.of_nat (length s)) = push ab s.
Proof.
  rewrite abAppend_push by lia. now rewrite Nat2Z.id, firstn_all.
Qed.

Lemma push_push (ab : abuf) (l1 l2 : list ascii) :
  push (push ab l1) l2 = push ab (l1 ++ l2).
Proof.
  unfold push. cbn [Abuf.b Abuf.size].
  rewrite length_app, <- app_assoc. f_equal. lia.
Qed.

Lemma push_nil (ab : abuf) : push ab [] = ab.
Proof.
  destruct ab as [b sz]. unfold push. cbn.
  now rewrite app_nil_r, Z.add_0_r.
Qed.

Lemma bytes_ok_push (ab : abuf) (l : list ascii) :
  bytes_ok ab -> bytes_ok (push ab l).
Proof.
  unfold bytes_ok, push. cbn [Abuf.b Abuf.size]. intros ->.
  rewrite length_app. lia.
Qed.

Lemma padding_loop_push (n : nat) :
  forall ab, padding_loop realloc_fails n ab = push ab (repeat SPACE n).
Proof.
  induction n as [|n IH]; intros ab.
  - simpl. now rewrite push_nil.
  - cbn [padding_loop repeat].
    rewrite (abAppend_push ab [SPACE] 1) by (simpl; lia).
    rewrite IH, push_push. reflexivity.
Qed.

Lemma rsize_row_at (E : editorConfig) (i : Z) :
  rendered_rows E ->
  rsize (row_at E i) = Z.of_nat (length (render (row_at E i))).
Proof.
  intros Hall. unfold row_at.
  destruct (nth_in_or_default (Z.to_nat i) (row E) default_row) as [Hin | Hd].
  - unfold rendered_rows in Hall. rewrite Forall_forall in Hall.
    now apply Hall.
  - rewrite Hd. reflexivity.
Qed.

(** The length that [editorDrawRows] computes cuts the rendered form, from
    [coloff] on, to the width of the screen. *)
Lemma visible_part (l : list ascii) (co cols : Z) :
  0 <= co -> 0 <= cols ->
  let len := Z.of_nat (length l) - co in
  let len := if len <? 0 then 0 else len in
  let len := if len >? cols then cols else len in
  0 <= len
  /\ (Z.to_nat len <= length (skipn (Z.to_nat co) l))%nat
  /\ firstn (Z.to_nat len) (skipn (Z.to_nat co) l)
     = firstn (Z.to_nat cols) (skipn (Z.to_nat co) l).
Proof.
  intros Hco Hcols. cbv zeta. rewrite length_skipn.
  destruct (Z.ltb_spec (Z.of_nat (length l) - co) 0) as [Hneg|Hpos].
  - rewrite Z.gtb_ltb. destruct (Z.ltb_spec cols 0); [lia|].
    split; [lia|]. split; [simpl; lia|].
    rewrite (skipn_all2 l) by lia. now rewrite !firstn_nil.
  - rewrite Z.gtb_ltb.
    destruct (Z.ltb_spec cols (Z.of_nat (length l) - co)) as [Hcut|Hfit].
    + split; [lia|]. split; [lia | reflexivity].
    + split; [lia|]. split; [lia|].
      rewrite !firstn_all2; [reflexivity | |]; rewrite length_skipn; lia.
Qed.

Lemma welcome_push (cols : Z) (ab : abuf) :
  0 <= cols ->
  let welcomelen := if 28 >? cols then cols else 28 in
  let padding := Z.quot (cols - welcomelen) 2 in
  abAppend realloc_fails
    (padding_loop realloc_fails
       (Z.to_nat (if padding =? 0 then padding else padding - 1))
       (if padding =? 0 then ab
        else abAppend realloc_fails ab (str "~"%string) 1))
    welcome_text welcomelen
  = push ab (welcome_line cols).
Proof.
  intros Hcols. cbv zeta. unfold welcome_line.
  assert (Hlen : length welcome_text = 28%nat) by reflexivity.
  set (wl := if 28 >? cols then cols else 28).
  assert (Hwl : 0 <= wl <= 28 /\ (wl = cols \/ (wl = 28 /\ 28 <= cols))).
  { subst wl. rewrite Z.gtb_ltb. destruct (Z.ltb_spec cols 28); lia. }
  assert (Hw : firstn (Z.to_nat cols) welcome_text
               = firstn (Z.to_nat wl) welcome_text).
  { destruct Hwl as [_ [-> | [-> Hge]]]; [reflexivity|].
    rewrite !firstn_all2; [reflexivity | |]; rewrite Hlen; lia. }
  rewrite Hw.
  rewrite (firstn_length_le welcome_text) by (rewrite Hlen; lia).
  rewrite Z2Nat.id by lia.
  rewrite abAppend_push by (try rewrite Hlen; lia).
  rewrite padding_loop_push.
  destruct (Z.eqb_spec (Z.quot (cols - wl) 2) 0) as [Hz|Hnz].
  - rewrite Hz, push_push. reflexivity.
  - rewrite (abAppend_push ab (str "~"%string) 1) by (simpl; lia).
    rewrite !push_push. cbn [Z.to_nat Pos.to_nat Pos.iter_op firstn].
    rewrite <- app_assoc. reflexivity.
Qed.

Lemma draw_row_push (E : editorConfig) (y : Z) (ab : abuf) :
  0 <= screenCols E -> 0 <= coloff E -> rendered_rows E ->
  draw_row realloc_fails E y ab = push ab (screen_line E y ++ end_of_line).
Proof.
  intros Hcols Hco Hrows. unfold draw_row, screen_line. cbv zeta.
  rewrite Z.geb_leb.
  assert (Heol : forall ab',
             abAppend realloc_fails
               (abAppend realloc_fails ab' (ESC :: str "[K"%string) 3)
               [CR; LF] 2
             = push ab' end_of_line).
  { intros ab'.
    rewrite (abAppend_push ab' (ESC :: str "[K"%string) 3) by (simpl; lia).
    rewrite abAppend_push by (simpl; lia).
    rewrite push_push. reflexivity. }
  destruct (Z.leb_spec (numrows E) (y + rowoff E)) as [Hpast|Hin];
    destruct (Z.ltb_spec (y + rowoff E) (numrows E)) as [Hin'|Hpast'];
    try lia.
  - destruct ((numrows E =? 0) && (y =? Z.quot (screenRows E) 3)).
    + change (snprintf 80
                (str "Kilo editor -- version "%string ++ KILO_VERSION))
        with (welcome_text, 28).
      cbn [fst snd].
      rewrite (welcome_push (screenCols E) ab Hcols).
      rewrite Heol, push_push. reflexivity.
    + rewrite (abAppend_push ab (str "~"%string) 1) by (simpl; lia).
      rewrite Heol, push_push. reflexivity.
  - rewrite (rsize_row_at E (y + rowoff E) Hrows).
    destruct (visible_part (render (row_at E (y + rowoff E)))
                (coloff E) (screenCols E) Hco Hcols) as [H0 [Hle Hcut]].
    cbv zeta in H0, Hle, Hcut.
    rewrite Heol. rewrite abAppend_push by assumption.
    rewrite Hcut, push_push. reflexivity.
Qed.

Lemma drawRows_loop_push (E : editorConfig) (n : nat) :
  0 <= screenCols E -> 0 <= coloff E -> rendered_rows E ->
  forall y ab,
    drawRows_loop realloc_fails n y E ab = push ab (screen_lines n y E).
Proof.
  intros Hcols Hco Hrows.
  induction n as [|n IH]; intros y ab.
  - simpl. now rewrite push_nil.
  - cbn [drawRows_loop screen_lines].
    rewrite draw_row_push by assumption.
    rewrite IH, push_push, <- app_assoc. reflexivity.
Qed.

Lemma status_loop_push (E : editorConfig) (rstatus : list ascii)
  (fuel : nat) :
  (1 <= length rstatus)%nat ->
  forall len ab,
    0 <= len <= screenCols E ->
    fuel = Z.to_nat (screenCols E - len) ->
    status_loop realloc_fails fuel E rstatus (Z.of_nat (length rstatus))
      len ab
    = push ab (if (length rstatus <=? fuel)%nat
               then repeat SPACE (fuel - length rstatus) ++ rstatus
               else repeat SPACE fuel).
Proof.
  intros Hr. induction fuel as [|fuel IH]; intros len ab Hlen Hfuel.
  - cbn [status_loop].
    destruct (Nat.leb_spec (length rstatus) 0); [lia|].
    simpl. now rewrite push_nil.
  - cbn [status_loop].
    destruct (Z.ltb_spec len (screenCols E)); [|lia].
    destruct (Z.eqb_spec (screenCols E - len) (Z.of_nat (length rstatus)))
      as [Heq|Hne].
    + rewrite abAppend_all.
      destruct (Nat.leb_spec (length rstatus) (S fuel)); [|lia].
      replace (S fuel - length rstatus)%nat with O by lia. reflexivity.
    + rewrite (abAppend_push ab [SPACE] 1) by (simpl; lia).
      rewrite (IH (len + 1)) by lia. rewrite push_push.
      cbn [Z.to_nat Pos.to_nat Pos.iter_op firstn]. f_equal.
      destruct (Nat.leb_spec (length rstatus) fuel) as [Hfit|Hnot];
        destruct (Nat.leb_spec (length rstatus) (S fuel)) as [Hfit'|Hnot'];
        try lia.
      * replace (S fuel - length rstatus)%nat
          with (S (fuel - length rstatus)) by lia.
        reflexivity.
      * reflexivity.
Qed.

Lemma status_text_length (E : editorConfig) :
  (length (status_text E) <= 40)%nat.
Proof.
  unfold status_text. rewrite !length_app.
  pose proof (fmt_d_length (numrows E)).
  pose proof (firstn_le_length 20
                (match filename E with
                 | Some f => str f
                 | None => str "[No Name]"%string
                 end)).
  change (length (str " - "%string)) with 3%nat.
  change (length (str " lines"%string)) with 6%nat. lia.
Qed.

Lemma rstatus_text_length (E : editorConfig) :
  (3 <= length (rstatus_text E) <= 23)%nat.
Proof.
  unfold rstatus_text. rewrite !length_app.
  pose proof (fmt_d_length (numrows E)).
  pose proof (fmt_d_length (cy E + 1)).
  change (length (str "/"%string)) with 1%nat. lia.
Qed.

Lemma status_bar_length (E : editorConfig) :
  length (status_bar E) = Z.to_nat (screenCols E).
Proof.
  unfold status_bar.
  pose proof (firstn_le_length (Z.to_nat (screenCols E)) (status_text E))
    as Hs.
  destruct (Nat.leb_spec
              (length (firstn (Z.to_nat (screenCols E)) (status_text E))
               + length (rstatus_text E)) (Z.to_nat (screenCols E))).
  - rewrite !length_app, repeat_length. lia.
  - rewrite !length_app, repeat_length. lia.
Qed.

Lemma editorDrawStatusBar_push (E : editorConfig) (ab : abuf) :
  0 <= screenCols E ->
  editorDrawStatusBar realloc_fails E ab
  = push ab ((ESC :: str "[7m"%string) ++ status_bar E
             ++ (ESC :: str "[m"%string) ++ [CR; LF]).
Proof.
  intros Hcols. unfold editorDrawStatusBar, snprintf. cbv zeta.
  cbn [fst snd].
  pose proof (status_text_length E) as Hs.
  pose proof (rstatus_text_length E) as Hr.
  rewrite (firstn_all2 (status_text E)) by lia.
  rewrite (firstn_all2 (rstatus_text E)) by lia.
  rewrite (abAppend_push ab (ESC :: str "[7m"%string) 4) by (simpl; lia).
  set (len := if Z.of_nat (length (status_text E)) >? screenCols E
              then screenCols E else Z.of_nat (length (status_text E))).
  assert (Hlen : 0 <= len <= screenCols E
                 /\ len <= Z.of_nat (length (status_text E))
                 /\ firstn (Z.to_nat len) (status_text E)
                    = firstn (Z.to_nat (screenCols E)) (status_text E)).
  { subst len. rewrite Z.gtb_ltb.
    destruct (Z.ltb_spec (screenCols E) (Z.of_nat (length (status_text E)))).
    - split; [lia|]. split; [lia | reflexivity].
    - split; [lia|]. split; [lia|].
      rewrite !firstn_all2 by lia. reflexivity. }
  destruct Hlen as [Hl1 [Hl2 Hl3]].
  rewrite (abAppend_push _ (status_text E) len) by lia.
  rewrite (status_loop_push E (rstatus_text E)) by lia.
  rewrite (abAppend_push _ (ESC :: str "[m"%string) 3) by (simpl; lia).
  rewrite (abAppend_push _ [CR; LF] 2) by (simpl; lia).
  rewrite !push_push. rewrite Hl3. f_equal.
  cbn [Z.to_nat Pos.to_nat Pos.iter_op firstn app].
  f_equal. f_equal. f_equal. f_equal.
  unfold status_bar.
  assert (Hgap : Z.to_nat (screenCols E - len)
                 = (Z.to_nat (screenCols E)
                    - length (firstn (Z.to_nat (screenCols E))
                                (status_text E)))%nat).
  { rewrite <- Hl3. rewrite firstn_length_le by lia. lia. }
  rewrite Hgap.
  pose proof (firstn_le_length (Z.to_nat (screenCols E)) (status_text E))
    as Hle.
  set (s := firstn (Z.to_nat (screenCols E)) (status_text E)) in *.
  destruct (Nat.leb_spec (length (rstatus_text E))
              (Z.to_nat (screenCols E) - length s));
    destruct (Nat.leb_spec (length s + length (rstatus_text E))
                (Z.to_nat (screenCols E))); try lia.
  - rewrite <- !app_assoc. reflexivity.
  - rewrite <- !app_assoc. reflexivity.
Qed.

Lemma str_length (s : String.string) :
  length (str s) = String.length s.
Proof.
  unfold str. induction s as [|c s IH]; simpl; [reflexivity | now rewrite IH].
Qed.

Lemma str_substring_0 (n : nat) (s : String.string) :
  str (String.substring 0 n s) = firstn n (str s).
Proof.
  unfold str. revert s. induction n as [|n IH]; intros [|c s]; simpl;
    try reflexivity.
  now rewrite IH.
Qed.

Lemma editorDrawMessageBar_push (now : Z) (E : editorConfig) (ab : abuf) :
  0 <= screenCols E ->
  editorDrawMessageBar realloc_fails now E ab
  = push ab ((ESC :: str "[K"%string) ++ message_shown now E).
Proof.
  intros Hcols. unfold editorDrawMessageBar, message_shown. cbv zeta.
  rewrite (abAppend_push ab (ESC :: str "[K"%string) 3) by (simpl; lia).
  cbn [Z.to_nat Pos.to_nat Pos.iter_op firstn].
  rewrite <- str_length.
  set (msglen := if Z.of_nat (length (str (status_msg E))) >? screenCols E
                 then screenCols E
                 else Z.of_nat (length (str (status_msg E)))).
  assert (Hlen : 0 <= msglen <= Z.of_nat (length (str (status_msg E)))
                 /\ firstn (Z.to_nat msglen) (str (status_msg E))
                    = firstn (Z.to_nat (screenCols E)) (str (status_msg E))).
  { subst msglen. rewrite Z.gtb_ltb.
    destruct (Z.ltb_spec (screenCols E)
                (Z.of_nat (length (str (status_msg E))))).
    - split; [lia | reflexivity].
    - split; [lia|]. rewrite !firstn_all2 by lia. reflexivity. }
  destruct Hlen as [Hl1 Hl2].
  destruct (now - statusmsg_time E <? 5).
  - destruct (Z.eqb_spec msglen 0) as [Hz|Hnz]; cbn [negb andb].
    + rewrite <- Hl2, Hz. cbn [Z.to_nat firstn]. rewrite app_nil_r.
      reflexivity.
    + rewrite abAppend_push by lia. rewrite push_push, Hl2. reflexivity.
  - rewrite andb_false_r, app_nil_r. reflexivity.
Qed.

Lemma cursor_text_length (E : editorConfig) :
  (length (cursor_text E) <= 26)%nat.
Proof.
  unfold cursor_text. cbn [length]. rewrite !length_app.
  pose proof (fmt_d_length (cy E - rowoff E + 1)).
  pose proof (fmt_d_length (rx E - coloff E + 1)).
  change (length (str "["%string)) with 1%nat.
  change (length (str ";"%string)) with 1%nat.
  change (length (str "H"%string)) with 1%nat. lia.
Qed.

Lemma refresh_frame_push (now : Z) (E : editorConfig) :
  0 <= screenCols E -> 0 <= coloff E -> rendered_rows E ->
  refresh_frame realloc_fails now E
  = push ABUF_INIT (frame_of now (editorScroll E)).
Proof.
  intros Hcols Hco Hrows. unfold refresh_frame, frame_of. cbv zeta.
  destruct (editorScroll_frame E) as [_ [_ [_ [Hrow [_ Hsc]]]]].
  assert (Hcols' : 0 <= screenCols (editorScroll E)) by lia.
  assert (Hco' : 0 <= coloff (editorScroll E))
    by now apply editorScroll_coloff_nonneg.
  assert (Hrows' : rendered_rows (editorScroll E))
    by (unfold rendered_rows; now rewrite Hrow).
  rewrite (abAppend_push ABUF_INIT (ESC :: str "[?25l"%string) 6)
    by (simpl; lia).
  rewrite (abAppend_push _ (ESC :: str "[H"%string) 3) by (simpl; lia).
  unfold editorDrawRows.
  rewrite drawRows_loop_push by assumption.
  rewrite editorDrawStatusBar_push by assumption.
  rewrite editorDrawMessageBar_push by assumption.
  unfold snprintf. cbn [fst].
  rewrite (firstn_all2 (cursor_text (editorScroll E)))
    by (pose proof (cursor_text_length (editorScroll E)); lia).
  rewrite (abAppend_all _ (cursor_text (editorScroll E))).
  rewrite (abAppend_push _ (ESC :: str "[?25h"%string) 6) by (simpl; lia).
  rewrite !push_push. f_equal.
  cbn [Z.to_nat Pos.to_nat Pos.iter_op firstn].
  rewrite <- !app_assoc. reflexivity.
Qed.

End FrameProofs.

Section ScreenLines.

Lemma welcome_line_length (cols : Z) :
  0 <= cols -> (length (welcome_line cols) <= Z.to_nat cols)%nat.
Proof.
  intros Hcols. unfold welcome_line. cbv zeta.
  pose proof (firstn_le_length (Z.to_nat cols) welcome_text) as Hw.
  set (w := firstn (Z.to_nat cols) welcome_text) in *.
  rewrite length_app.
  assert (Hq : 0 <= Z.quot (cols - Z.of_nat (length w)) 2
               <= cols - Z.of_nat (length w)).
  { rewrite Z.quot_div_nonneg by lia. split.
    - apply Z.div_pos; lia.
    - apply Z.div_le_upper_bound; lia. }
  destruct (Z.eqb_spec (Z.quot (cols - Z.of_nat (length w)) 2) 0).
  - simpl. lia.
  - rewrite length_app, repeat_length. simpl. lia.
Qed.

Lemma screen_line_length (E : editorConfig) (y : Z) :
  1 <= screenCols E ->
  (length (screen_line E y) <= Z.to_nat (screenCols E))%nat.
Proof.
  intros Hcols. unfold screen_line.
  destruct (y + rowoff E <? numrows E).
  - apply firstn_le_length.
  - destruct ((numrows E =? 0) && (y =? Z.quot (screenRows E) 3)).
    + apply welcome_line_length. lia.
    + simpl. lia.
Qed.

Lemma synced_rendered (E : editorConfig) :
  Forall synced (row E) -> rendered_rows E.
Proof.
  unfold rendered_rows. intros H. rewrite Forall_forall in *.
  intros r Hin. rewrite (H r Hin). apply rsize_row_of.
Qed.

End ScreenLines.

(** X16: what [editorDrawRows] draws.  When no [realloc] fails, on a screen
    width and a [coloff] that are not negative and rows that have the
    [rsize] of their rendered form, it adds to the buffer one line for each
    of the [screenRows] screen rows, each ended by the erase code and a
    line end: a row of the file shows its rendered form from column
    [coloff] on, cut to [screenCols] bytes; a row past the end of the file
    shows a tilde, or the centred welcome text on row [screenRows / 3] of an
    empty buffer.  The buffer's [size] keeps counting its bytes, and on a
    screen of at least one column no line is wider than the screen. *)
Theorem draw_rows_shows_the_window
  (realloc_fails : abuf -> Z -> bool) (E : editorConfig) (ab : abuf) :
  (forall b n, realloc_fails b n = false) ->
  0 <= screenCols E -> 0 <= coloff E -> rendered_rows E ->
  editorDrawRows realloc_fails E ab
  = push ab (screen_lines (Z.to_nat (screenRows E)) 0 E)
  /\ (bytes_ok ab -> bytes_ok (editorDrawRows realloc_fails E ab))
  /\ (1 <= screenCols E ->
      forall y, (length (screen_line E y) <= Z.to_nat (screenCols E))%nat).
Proof.
  intros Hno Hcols Hco Hrows.
  assert (Heq : editorDrawRows realloc_fails E ab
                = push ab (screen_lines (Z.to_nat (screenRows E)) 0 E)).
  { unfold editorDrawRows. now apply drawRows_loop_push. }
  split; [exact Heq|]. split.
  - intros Hok. rewrite Heq. now apply bytes_ok_push.
  - intros H1 y. now apply screen_line_length.
Qed.

Lemma draw_rows_shows_the_window_witness :
  let E := set_coloff 4 sample_editor in
  editorDrawRows realloc_succeeds E ABUF_INIT
  = push ABUF_INIT (screen_lines (Z.to_nat (screenRows E)) 0 E)
  /\ (bytes_ok ABUF_INIT ->
      bytes_ok (editorDrawRows realloc_succeeds E ABUF_INIT))
  /\ (1 <= screenCols E ->
      forall y, (length (screen_line E y) <= Z.to_nat (screenCols E))%nat).
Proof.
  apply (draw_rows_shows_the_window realloc_succeeds
           (set_coloff 4 sample_editor) ABUF_INIT).
  - reflexivity.
  - vm_compute. discriminate.
  - vm_compute. discriminate.
  - unfold rendered_rows. repeat constructor.
Defined.

(** X17: the status bar is as wide as the screen.  When no [realloc]
    fails and [screenCols] is not negative, [editorDrawStatusBar] adds the
    inverse-video code, exactly [screenCols] bytes, the code that ends
    inverse video and a line end.  The bytes are the status text cut to the
    screen, then spaces, and the line indicator [cy + 1 / numrows] at the
    right edge when the two texts fit together. *)
Theorem status_bar_fills_the_width
  (realloc_fails : abuf -> Z -> bool) (E : editorConfig) (ab : abuf) :
  (forall b n, realloc_fails b n = false) ->
  0 <= screenCols E ->
  editorDrawStatusBar realloc_fails E ab
  = push ab ((ESC :: str "[7m"%string) ++ status_bar E
             ++ (ESC :: str "[m"%string) ++ [CR; LF])
  /\ length (status_bar E) = Z.to_nat (screenCols E).
Proof.
  intros Hno Hcols. split.
  - now apply editorDrawStatusBar_push.
  - apply status_bar_length.
Qed.

Lemma status_bar_fills_the_width_witness :
  editorDrawStatusBar realloc_succeeds sample_editor ABUF_INIT
  = push ABUF_INIT ((ESC :: str "[7m"%string) ++ status_bar sample_editor
                    ++ (ESC :: str "[m"%string) ++ [CR; LF])
  /\ length (status_bar sample_editor) = 80%nat.
Proof.
  apply (status_bar_fills_the_width realloc_succeeds sample_editor ABUF_INIT).
  - reflexivity.
  - vm_compute. discriminate.
Defined.

(** X18: a status message is shown for five seconds.  After
    [editorSetStatusMessage] at time [t], when no [realloc] fails and
    [screenCols] is not negative, [editorDrawMessageBar] at time [now] adds
    the erase code and then, while [now - t < 5], the first
    [min(49, screenCols)] bytes of the message; from [t + 5] on it adds
    nothing after the erase code. *)
Theorem status_message_expires
  (realloc_fails : abuf -> Z -> bool) (text : String.string) (t now : Z)
  (E : editorConfig) (ab : abuf) :
  (forall b n, realloc_fails b n = false) ->
  0 <= screenCols E ->
  editorDrawMessageBar realloc_fails now (editorSetStatusMessage text t E) ab
  = push ab ((ESC :: str "[K"%string)
             ++ (if now - t <? 5
                 then firstn (Nat.min (Z.to_nat (screenCols E)) 49) (str text)
                 else [])).
Proof.
  intros Hno Hcols.
  rewrite editorDrawMessageBar_push by assumption.
  unfold message_shown, editorSetStatusMessage, set_status.
  cbn [statusmsg_time status_msg screenCols].
  rewrite str_substring_0, firstn_firstn. reflexivity.
Qed.

Lemma status_message_expires_witness :
  editorDrawMessageBar realloc_succeeds 5
    (editorSetStatusMessage "HELP: Ctrl-Q = quit"%string 0 sample_editor)
    ABUF_INIT
  = push ABUF_INIT (ESC :: str "[K"%string).
Proof.
  rewrite <- (app_nil_r (ESC :: str "[K"%string)).
  apply (status_message_expires realloc_succeeds
           "HELP: Ctrl-Q = quit"%string 0 5 sample_editor ABUF_INIT).
  - reflexivity.
  - vm_compute. discriminate.
Defined.

(** X19: the frame of a refresh.  When no [realloc] fails, on a screen of
    at least one text row and one column, with a [coloff] that is not
    negative and rows that have the [rsize] of their rendered form, the
    bytes that [editorRefreshScreen] writes are: hide cursor, cursor home,
    the screen rows, the status bar, the message bar, the cursor position
    and show cursor, all for the state after [editorScroll]; and the
    position sent, [cy - rowoff + 1] and [rx - coloff + 1], is a row of the
    text area and a column of the screen, counted from 1. *)
Theorem refresh_writes_the_frame
  (realloc_fails : abuf -> Z -> bool) (now : Z) (E : editorConfig) :
  (forall b n, realloc_fails b n = false) ->
  1 <= screenRows E -> 1 <= screenCols E -> 0 <= coloff E ->
  rendered_rows E ->
  let E' := editorRefreshScreen E in
  refresh_output realloc_fails now E = frame_of now E'
  /\ 1 <= cy E' - rowoff E' + 1 <= screenRows E
  /\ 1 <= rx E' - coloff E' + 1 <= screenCols E.
Proof.
  intros Hno Hr Hc Hco Hrows E'. subst E'. unfold editorRefreshScreen.
  split.
  - unfold refresh_output.
    rewrite refresh_frame_push by (assumption || lia).
    unfold push, ABUF_INIT. cbn [Abuf.b Abuf.size app].
    rewrite Z.add_0_l, Nat2Z.id. apply firstn_all.
  - pose proof (editorScroll_rows E Hr) as H1.
    pose proof (editorScroll_cols E Hc) as H2.
    destruct (editorScroll_frame E) as [_ [Hy _]]. rewrite Hy. lia.
Qed.

Lemma refresh_writes_the_frame_witness :
  let E := set_cx 3 sample_editor in
  let E' := editorRefreshScreen E in
  refresh_output realloc_succeeds 0 E = frame_of 0 E'
  /\ 1 <= cy E' - rowoff E' + 1 <= screenRows E
  /\ 1 <= rx E' - coloff E' + 1 <= screenCols E.
Proof.
  apply (refresh_writes_the_frame realloc_succeeds 0
           (set_cx 3 sample_editor)).
  - reflexivity.
  - vm_compute. discriminate.
  - vm_compute. discriminate.
  - vm_compute. discriminate.
  - unfold rendered_rows. repeat constructor.
Defined.

(** * The cursor position report *)

Section CursorReport.

Variable sscanf_d_d : list ascii -> option (Z * Z).

Lemma store_split (buf : list ascii) :
  forall i c,
    (i < length buf)%nat ->
    store buf i c = firstn i buf ++ c :: skipn (S i) buf.
Proof.
  induction buf as [|x buf IH]; intros i c Hi; [simpl in Hi; lia|].
  destruct i as [|i]; [reflexivity|].
  cbn [store firstn skipn app]. rewrite IH by (simpl in Hi; lia).
  reflexivity.
Qed.

Lemma store_length (buf : list ascii) :
  forall i c, length (store buf i c) = length buf.
Proof.
  induction buf as [|x buf IH]; intros i c; [reflexivity|].
  destruct i; simpl; [reflexivity | now rewrite IH].
Qed.




(** The reply loop on as many bytes without [R] as there are cells. *)
Lemma reply_loop_fills (l : list ascii) :
  forall i buf rest,
    ~ In "R"%char l ->
    exists buf',
      reply_loop (length l) i buf (map Got l ++ rest)
      = (buf', (i + length l)%nat, rest).
Proof.
  induction l as [|c l IH]; intros i buf rest Hno.
  - exists buf. simpl. now rewrite Nat.add_0_r.
  - cbn [length map app reply_loop read1].
    destruct (Ascii.eqb_spec c "R"%char) as [->|Hc].
    { destruct Hno. now left. }
    destruct (IH (S i) (store buf i c) rest) as [buf' Hb].
    { intros Hin. apply Hno. now right. }
    exists buf'. rewrite Hb. f_equal. f_equal. lia.
Qed.


Lemma getCursorPosition_overrun (l : list ascii) (rest : tty)
  (garbage : list ascii) :
  length l = 32%nat -> ~ In "R"%char l ->
  getCursorPosition sscanf_d_d true garbage (map Got l ++ rest) = Undefined.
Proof.
  intros Hlen Hno. unfold getCursorPosition. cbn [negb].
  destruct (reply_loop_fills l 0 garbage rest Hno) as [buf' Hb].
  rewrite Hlen in Hb. rewrite Hb. reflexivity.
Qed.

End CursorReport.



(** X21: [getCursorPosition] overruns its buffer on a long reply.  When
    32 bytes arrive and none of them is [R], the loop ends with [i] equal to
    the size of [buf], and the terminator is written one cell past the
    array: the C standard gives the run no meaning. *)
Theorem cursor_report_overruns_on_32_bytes
  (sscanf_d_d : list ascii -> option (Z * Z)) (l : list ascii) (rest : tty)
  (garbage : list ascii) :
  length l = 32%nat -> ~ In "R"%char l ->
  getCursorPosition sscanf_d_d true garbage (map Got l ++ rest) = Undefined.
Proof. intros Hlen Hno. now apply getCursorPosition_overrun. Qed.

Lemma cursor_report_overruns_on_32_bytes_witness :
  getCursorPosition (fun _ => None) true (repeat NUL 32)
    (map Got (repeat "1"%char 32) ++ [Got "R"%char])
  = Undefined.
Proof.
  apply (cursor_report_overruns_on_32_bytes (fun _ => None)
           (repeat "1"%char 32) [Got "R"%char] (repeat NUL 32)).
  - reflexivity.
  - intros H. apply repeat_spec in H. discriminate H.
Defined.

(** X22: where the size of the screen comes from.  When [ioctl] reports a
    column count other than 0, [initEditor] takes the size from it, reads
    nothing and leaves [screenRows = ws_row - 2] and [screenCols = ws_col]
    with the cursor, the offsets and the row store at zero.  A column count
    of 0 is handled as a failed [ioctl]: the size is asked from the terminal
    with the cursor position report.  When that fails, because one of the
    two writes fails or the report is refused or [sscanf] does not read two
    numbers, the program exits with status 1. *)
Theorem window_size_sources
  (sscanf_d_d : list ascii -> option (Z * Z)) (ws_row ws_col : Z)
  (move_ok write_ok : bool) (garbage : list ascii) (inp : tty) :
  ws_col <> 0 ->
  init_terminal sscanf_d_d (Some (ws_row, ws_col)) move_ok write_ok
    garbage inp
  = Returns (mk_editorConfig 0 0 0 0 0 (ws_row - 2) ws_col 0 [] None
               String.EmptyString 0, inp)
  /\ getWindowSize sscanf_d_d (Some (ws_row, 0)) move_ok write_ok garbage inp
     = getWindowSize sscanf_d_d None move_ok write_ok garbage inp
  /\ (move_ok = false \/ write_ok = false ->
      init_terminal sscanf_d_d None move_ok write_ok garbage inp = Exits 1)
  /\ (forall rest,
        getCursorPosition sscanf_d_d write_ok garbage inp
        = Returns (None, rest) ->
        init_terminal sscanf_d_d None move_ok write_ok garbage inp
        = Exits 1)
  /\ (forall r c rest,
        move_ok = true ->
        getCursorPosition sscanf_d_d write_ok garbage inp
        = Returns (Some (r, c), rest) ->
        init_terminal sscanf_d_d None move_ok write_ok garbage inp
        = Returns (mk_editorConfig 0 0 0 0 0 (r - 2) c 0 [] None
                     String.EmptyString 0, rest)).
Proof.
  intros Hcol. unfold init_terminal, getWindowSize.
  split; [|split; [|split; [|split]]].
  - destruct (Z.eqb_spec ws_col 0); [contradiction | reflexivity].
  - reflexivity.
  - intros [-> | ->]; [reflexivity|].
    destruct move_ok; reflexivity.
  - intros rest Hcp. destruct move_ok; cbn [negb]; [|reflexivity].
    rewrite Hcp. reflexivity.
  - intros r c rest -> Hcp. cbn [negb]. rewrite Hcp. reflexivity.
Qed.

Lemma window_size_sources_witness :
  init_terminal (fun _ => None) (Some (24, 80)) true true (repeat NUL 32) []
  = Returns (mk_editorConfig 0 0 0 0 0 (24 - 2) 80 0 [] None
               String.EmptyString 0, []).
Proof.
  apply (window_size_sources (fun _ => None) 24 80 true true
           (repeat NUL 32) []).
  discriminate.
Defined.
